(** * Employee dashboard: the filter pipeline, the department list and the
      CSV cell serializer of [src/components/EmployeeGrid.tsx]

    The component keeps three pieces of view state ([searchText],
    [departmentFilter], [statusFilter]) and derives from the static array
    [employeeData]
      - [departments]  (lines 17-20),
      - [filteredData] (lines 239-270),
      - the [processCellCallback] given to the grid's CSV export
        (lines 277-302).
    The second part adds the value formatters and class rules of
    [columnDefs] and the event handlers, as a state machine over the four
    [useState] cells.
    These three derivations are embedded below as functions over lists of
    records.  JavaScript strings are sequences of UTF-16 code units; property
    reads and method calls that can throw are evaluated in a completion
    monad, so that "does not throw" is a statement and not a convention. *)

From Stdlib Require Import ZArith NArith QArith List String Ascii Permutation.
From Stdlib Require Import Qabs DecimalString DecimalN.
From stdpp Require Import base decidable list sorting lexico.

Local Open Scope N_scope.

(** ** Strings of the ECMAScript runtime *)

Module JS.

(** A string value: its UTF-16 code units, in order. *)
Abbreviation jsstring := (list N).

(** The string written by a source literal (characters below U+0100). *)
Definition lit (s : string) : jsstring :=
  List.map N_of_ascii (list_ascii_of_string s).

(** WhiteSpace and LineTerminator code points, as [String.prototype.trim]
    strips them. *)
Definition isWhiteSpace (c : N) : bool :=
  (9 <=? c) && (c <=? 13)
  || (c =? 32) || (c =? 160) || (c =? 5760)
  || (8192 <=? c) && (c <=? 8202)
  || (c =? 8232) || (c =? 8233) || (c =? 8239) || (c =? 8287)
  || (c =? 12288) || (c =? 65279).

Fixpoint trimStart (s : jsstring) : jsstring :=
  match s with
  | c :: s' => if isWhiteSpace c then trimStart s' else s
  | [] => []
  end.

Definition trimEnd (s : jsstring) : jsstring := rev (trimStart (rev s)).

(** [s.trim()] *)
Definition trim (s : jsstring) : jsstring := trimEnd (trimStart s).

(** [s.startsWith(pat)] at position 0. *)
Fixpoint startsWith (s pat : jsstring) : bool :=
  match pat, s with
  | [], _ => true
  | _ :: _, [] => false
  | p :: pat', c :: s' => (c =? p) && startsWith s' pat'
  end.

(** [s.includes(pat)]: [pat] occurs at some index of [s]. *)
Fixpoint includes (s pat : jsstring) : bool :=
  startsWith s pat
  || match s with
     | [] => false
     | _ :: s' => includes s' pat
     end.

(** [a === b] on strings compares the code units. *)
Definition strictEq (a b : jsstring) : bool := bool_decide (a = b).

(** [arr.join(sep)] on an array of strings. *)
Fixpoint join (sep : jsstring) (arr : list jsstring) : jsstring :=
  match arr with
  | [] => []
  | [x] => x
  | x :: rest => x ++ sep ++ join sep rest
  end.

(** The values the component handles. *)
Inductive Value : Type :=
  | VUndefined
  | VNull
  | VBool (b : bool)
  | VNum (x : Q)
  | VStr (s : jsstring)
  | VArr (a : list jsstring).

(** ToBoolean: [undefined], [null], [false], [0] and the empty string are
    falsy. *)
Definition ToBoolean (v : Value) : bool :=
  match v with
  | VUndefined | VNull => false
  | VBool b => b
  | VNum x => negb (Qeq_bool x 0%Q)
  | VStr s => match s with [] => false | _ => true end
  | VArr _ => true
  end.

(** Abrupt completions: the only exception these expressions can raise is
    the TypeError of a method call on a value that has no such method. *)
Inductive Error : Type := TypeError.

Inductive Completion (A : Type) : Type :=
  | Normal (a : A)
  | Throw (e : Error).
Arguments Normal {A} a.
Arguments Throw {A} e.

#[global] Instance Completion_ret : MRet Completion := @Normal.

#[global] Instance Completion_bind : MBind Completion := fun A B k c =>
  match c with
  | Normal a => k a
  | Throw e => Throw e
  end.

End JS.

Import JS.

(** Lower-casing restricted to code units below U+0100, where
    [String.prototype.toLowerCase] maps A-Z, U+00C0-U+00D6 and U+00D8-U+00DE
    to the code unit 32 above and leaves every other unit alone.  Used to
    evaluate the pipeline on concrete inputs. *)
Definition toLowerCase_latin1 (s : jsstring) : jsstring :=
  List.map (fun c =>
    if (65 <=? c) && (c <=? 90) || (192 <=? c) && (c <=? 214)
       || (216 <=? c) && (c <=? 222)
    then c + 32 else c) s.

(** ** The record type *)

(** Modelled from the spec: the [Employee] interface of [../types/Employee]
    (data model table: names and types of the fields).  TypeScript's [number]
    is read as its mathematical value, a rational; [hireDate] is the text
    handed to [new Date]; [manager] is [None] when absent or [null].  The
    field [id] is spelled [emp_id] here. *)
Record Employee : Type := {
  emp_id : Q;
  firstName : jsstring;
  lastName : jsstring;
  email : jsstring;
  department : jsstring;
  position : jsstring;
  salary : Q;
  hireDate : jsstring;
  age : Q;
  location : jsstring;
  performanceRating : Q;
  projectsCompleted : Q;
  isActive : bool;
  skills : list jsstring;
  manager : option jsstring
}.

(** The property read [emp.manager]. *)
Definition get_manager (emp : Employee) : Value :=
  match manager emp with
  | Some m => VStr m
  | None => VNull
  end.

(** ** Array methods with a callback that may throw *)

(** [arr.filter(f)]: [f] runs on the elements in order, its result goes
    through ToBoolean, and the first abrupt completion ends the call. *)
Fixpoint Array_filter {A} (f : A → Completion Value) (arr : list A)
  : Completion (list A) :=
  match arr with
  | [] => mret []
  | x :: rest =>
      v ← f x;
      kept ← Array_filter f rest;
      mret (if ToBoolean v then x :: kept else kept)
  end.

(** [arr.some(f)]: stops at the first truthy result. *)
Fixpoint Array_some {A} (f : A → Completion Value) (arr : list A)
  : Completion Value :=
  match arr with
  | [] => mret (VBool false)
  | x :: rest =>
      v ← f x;
      if ToBoolean v then mret (VBool true) else Array_some f rest
  end.

(** [a || b] and [a && b]: the right operand is evaluated only when the
    left one does not decide, and the deciding operand is the value. *)
Definition js_or (a b : Completion Value) : Completion Value :=
  x ← a; if ToBoolean x then mret x else b.

Definition js_and (a b : Completion Value) : Completion Value :=
  x ← a; if ToBoolean x then b else mret x.

(** ** The filter pipeline, [filteredData] *)

Section FilterPipeline.

(** [String.prototype.toLowerCase] of the host: full Unicode case
    mapping, kept abstract. *)
Variable toLowerCase : jsstring → jsstring.

(** The method call [v.toLowerCase()]: a TypeError on anything that is
    not a string. *)
Definition call_toLowerCase (v : Value) : Completion jsstring :=
  match v with
  | VStr s => mret (toLowerCase s)
  | _ => Throw TypeError
  end.

(** [v.toLowerCase().includes(searchLower)] *)
Definition lowerIncludes (searchLower : jsstring) (v : Value)
  : Completion Value :=
  s ← call_toLowerCase v; mret (VBool (includes s searchLower)).

Local Infix "|||" := js_or (at level 50, left associativity).

(** The arrow function of lines 257-265. *)
Definition searchCallback (searchLower : jsstring) (emp : Employee)
  : Completion Value :=
  lowerIncludes searchLower (VStr (firstName emp)) |||
  lowerIncludes searchLower (VStr (lastName emp)) |||
  lowerIncludes searchLower (VStr (email emp)) |||
  lowerIncludes searchLower (VStr (department emp)) |||
  lowerIncludes searchLower (VStr (position emp)) |||
  lowerIncludes searchLower (VStr (location emp)) |||
  js_and (mret (get_manager emp))
         (lowerIncludes searchLower (get_manager emp)) |||
  Array_some (λ skill, lowerIncludes searchLower (VStr skill)) (skills emp).

(** Lines 243-245. *)
Definition departmentStage (departmentFilter : jsstring)
    (data : list Employee) : Completion (list Employee) :=
  if negb (strictEq departmentFilter (lit "All")) then
    Array_filter
      (λ emp, mret (VBool (strictEq (department emp) departmentFilter)))
      data
  else mret data.

(** Lines 248-251. *)
Definition statusStage (statusFilter : jsstring)
    (data : list Employee) : Completion (list Employee) :=
  if negb (strictEq statusFilter (lit "All")) then
    let isActive' := strictEq statusFilter (lit "Active") in
    Array_filter (λ emp, mret (VBool (Bool.eqb (isActive emp) isActive')))
                 data
  else mret data.

(** Lines 254-267. *)
Definition searchStage (searchText : jsstring)
    (data : list Employee) : Completion (list Employee) :=
  if ToBoolean (VStr (trim searchText)) then
    searchLower ← call_toLowerCase (VStr searchText);
    Array_filter (searchCallback searchLower) data
  else mret data.

(** Lines 239-270: the three stages in sequence. *)
Definition filteredData (employeeData : list Employee)
    (searchText departmentFilter statusFilter : jsstring)
  : Completion (list Employee) :=
  data ← departmentStage departmentFilter employeeData;
  data ← statusStage statusFilter data;
  searchStage searchText data.

End FilterPipeline.

(** ** The department list, [departments] *)

(** [new Set(iterable)] followed by a spread: the distinct elements in the
    order of their first occurrence (strings are compared by code units). *)
Definition Set_add (s : list jsstring) (x : jsstring) : list jsstring :=
  if bool_decide (x ∈ s) then s else s ++ [x].

Definition Set_of (iterable : list jsstring) : list jsstring :=
  foldl Set_add [] iterable.

(** The default comparator of [Array.prototype.sort] on strings puts [x]
    before [y] unless [y < x], where [<] compares code units
    lexicographically. *)
Definition SortCompare_le (x y : jsstring) : Prop := ¬ lexico y x.

(** [arr.sort()].  ECMAScript fixes the order and stability of the result
    and leaves the algorithm to the engine; a merge sort stands for it. *)
Definition Array_sort (arr : list jsstring) : list jsstring :=
  merge_sort SortCompare_le arr.

(** Lines 17-20. *)
Definition departments (employeeData : list Employee) : list jsstring :=
  let uniqueDepts := Set_of (List.map department employeeData) in
  lit "All" :: Array_sort uniqueDepts.

(** ** Cell serialization for the CSV export *)

(** Decimal digits of a natural number. *)
Definition decimal (n : N) : jsstring :=
  lit (NilZero.string_of_uint (N.to_uint n)).

(** The nearest integer to a non-negative rational, ties going up: the
    rounding of [Number.prototype.toFixed] and of [Intl.NumberFormat] on
    magnitudes. *)
Definition roundHalfUp (x : Q) : N :=
  Z.to_N ((2 * Qnum x + Zpos (Qden x)) / (2 * Zpos (Qden x)))%Z.

(** Thousands separators, on the digits least significant first. *)
Fixpoint groupRev (ds : jsstring) : jsstring :=
  match ds with
  | a :: b :: c :: rest =>
      match rest with
      | [] => ds
      | _ :: _ => a :: b :: c :: 44 :: groupRev rest
      end
  | _ => ds
  end.

Definition groupThousands (ds : jsstring) : jsstring := rev (groupRev (rev ds)).

Definition signOf (x : Q) : jsstring :=
  if Qle_bool 0%Q x then [] else lit "-".

(** The value of a digit and of a string of digits. *)
Definition digitValue (c : N) : N := c - 48.

Definition valueOfDigits (ds : jsstring) : N :=
  foldl (λ acc c, 10 * acc + digitValue c) 0 ds.

Definition isDigitb (c : N) : bool := (48 <=? c) && (c <=? 57).

(** The Gregorian calendar. *)
Definition isLeapYear (y : N) : bool :=
  (y mod 4 =? 0) && (negb (y mod 100 =? 0) || (y mod 400 =? 0)).

Definition daysInMonth (y m : N) : N :=
  if m =? 2 then (if isLeapYear y then 29 else 28)
  else if (m =? 4) || (m =? 6) || (m =? 9) || (m =? 11) then 30
  else 31.

(** The calendar day before the day [d] of month [m] of year [y]. *)
Definition dayBefore (y m d : N) : N * N * N :=
  if 1 <? d then (y, m, d - 1)
  else if 1 <? m then (y, m - 1, daysInMonth y (m - 1))
  else (y - 1, 12, 31).

(** [Date.parse] on the date-only form [YYYY-MM-DD] of a calendar day:
    year, month and day of the text, [None] for any other text. *)
Definition parseDateOnly (text : jsstring) : option (N * N * N) :=
  match text with
  | [y1; y2; y3; y4; s1; m1; m2; s2; d1; d2] =>
      if forallb isDigitb [y1; y2; y3; y4; m1; m2; d1; d2]
         && (s1 =? 45) && (s2 =? 45)
      then
        let y := valueOfDigits [y1; y2; y3; y4] in
        let m := valueOfDigits [m1; m2] in
        let d := valueOfDigits [d1; d2] in
        if (1 <=? m) && (m <=? 12) && (1 <=? d) && (d <=? daysInMonth y m)
        then Some (y, m, d) else None
      else None
  | _ => None
  end.

(** The raw value the grid reads from the row for a column, [params.value]. *)
Definition cellValue (field : string) (emp : Employee) : Value :=
  if String.eqb field "id" then VNum (emp_id emp)
  else if String.eqb field "firstName" then VStr (firstName emp)
  else if String.eqb field "lastName" then VStr (lastName emp)
  else if String.eqb field "email" then VStr (email emp)
  else if String.eqb field "department" then VStr (department emp)
  else if String.eqb field "position" then VStr (position emp)
  else if String.eqb field "salary" then VNum (salary emp)
  else if String.eqb field "hireDate" then VStr (hireDate emp)
  else if String.eqb field "age" then VNum (age emp)
  else if String.eqb field "location" then VStr (location emp)
  else if String.eqb field "performanceRating" then VNum (performanceRating emp)
  else if String.eqb field "projectsCompleted" then VNum (projectsCompleted emp)
  else if String.eqb field "isActive" then VBool (isActive emp)
  else if String.eqb field "skills" then VArr (skills emp)
  else if String.eqb field "manager" then get_manager emp
  else VUndefined.

(** [Array.isArray(v)] *)
Definition isArray (v : Value) : bool :=
  match v with
  | VArr _ => true
  | _ => false
  end.

(** The method call [v.join(sep)]. *)
Definition call_join (sep : jsstring) (v : Value) : Completion Value :=
  match v with
  | VArr a => mret (VStr (join sep a))
  | _ => Throw TypeError
  end.

Section CsvExport.

(** [new Date(v).toLocaleDateString('en-US')] of the host, for the values
    [shortDate_enUS] below does not work out itself. *)
Variable toLocaleDateString_enUS : Value → jsstring.

(** The time zone of the host: whether its local time is behind UTC at
    00:00 UTC of the given day (year, month, day). *)
Variable behindUTC : N → N → N → bool.

(** [Number::toString], which [toFixed] falls back to from 10^21 on. *)
Variable Number_toString : Q → jsstring.

(** The integer the host's number format prints for a magnitude of 2^53
    and more: the shortest digits that read back as the number, padded with
    zeros. *)
Variable shortestInteger : Q → N.

(** The currency format of a value that is not a number and goes through
    ToNumber first. *)
Variable format_coerced : Value → jsstring.

(** [new Intl.NumberFormat('en-US', {style: 'currency', currency: 'USD',
    minimumFractionDigits: 0, maximumFractionDigits: 0}).format(x)] on a
    finite number: sign, dollar sign and the integer digits grouped by
    thousands.  Below 2^53 the integer is the magnitude rounded to the
    nearest integer, ties away from zero. *)
Definition formatUSD (x : Q) : jsstring :=
  let ax := Qabs x in
  let n := if Qle_bool (inject_Z (2 ^ 53)%Z) ax then shortestInteger ax
           else roundHalfUp ax in
  signOf x ++ lit "$" ++ groupThousands (decimal n).

(** [new Intl.NumberFormat('en-US', {...}).format(v)], lines 288-293. *)
Definition Intl_format (v : Value) : jsstring :=
  match v with
  | VNum x => formatUSD x
  | _ => format_coerced v
  end.

(** [new Date(v).toLocaleDateString('en-US')], line 296.  A date-only text
    is midnight UTC of its day; the host shows the local calendar day of
    that instant, the same day or, behind UTC, the day before, as month,
    day and year without padding.  Worked out for the days of the
    Gregorian calendar, from 1583 on. *)
Definition shortDate_enUS (v : Value) : jsstring :=
  match v with
  | VStr text =>
      match parseDateOnly text with
      | Some (y, m, d) =>
          if 1583 <=? y then
            let '(y', m', d') :=
              if behindUTC y m d then dayBefore y m d else (y, m, d) in
            decimal m' ++ lit "/" ++ decimal d' ++ lit "/" ++ decimal y'
          else toLocaleDateString_enUS v
      | None => toLocaleDateString_enUS v
      end
  | _ => toLocaleDateString_enUS v
  end.

(** [x.toFixed(1)] *)
Definition toFixed1 (x : Q) : jsstring :=
  let ax := Qabs x in
  if Qle_bool (inject_Z (10 ^ 21)%Z) ax then signOf x ++ Number_toString ax
  else
    let m := decimal (roundHalfUp (10 * ax)%Q) in
    let m := if (length m <=? 1)%nat then lit "0" ++ m else m in
    let k := length m in
    signOf x ++ take (k - 1) m ++ lit "." ++ drop (k - 1) m.

(** [v?.toFixed(1)]: [undefined] on [null] and [undefined], a TypeError on
    a value without the method. *)
Definition optional_toFixed1 (v : Value) : Completion Value :=
  match v with
  | VUndefined | VNull => mret VUndefined
  | VNum x => mret (VStr (toFixed1 x))
  | _ => Throw TypeError
  end.

(** Lines 277-302: [field] is [params.column.getColDef().field], [value] is
    [params.value]. *)
Definition processCellCallback (field : string) (value : Value)
  : Completion Value :=
  if String.eqb field "skills" && isArray value then
    call_join (lit ", ") value
  else if String.eqb field "isActive" then
    mret (VStr (if ToBoolean value then lit "Active" else lit "Inactive"))
  else if String.eqb field "salary" then mret (VStr (Intl_format value))
  else if String.eqb field "hireDate" then
    mret (VStr (shortDate_enUS value))
  else if String.eqb field "performanceRating" then optional_toFixed1 value
  else mret value.

(** The exported cell of column [field] in the row [emp]: the callback on
    the value the grid read from the row. *)
Definition exportCell (field : string) (emp : Employee) : Completion Value :=
  processCellCallback field (cellValue field emp).

End CsvExport.

(** ** Vocabulary of the statements *)

(** [pat] is a substring of [s], anywhere in it. *)
Definition occursIn (pat s : jsstring) : Prop :=
  ∃ pre post, s = pre ++ pat ++ post.

(** The fields the search looks at, the manager only when there is one. *)
Definition textFields (emp : Employee) : list jsstring :=
  [firstName emp; lastName emp; email emp; department emp; position emp;
   location emp].

Definition searchedFields (emp : Employee) : list jsstring :=
  textFields emp ++ option_list (manager emp) ++ skills emp.

(** At least one searched field, lower-cased, contains [needle]. *)
Definition searchHit (lower : jsstring → jsstring) (needle : jsstring)
    (emp : Employee) : Prop :=
  Exists (λ field, occursIn needle (lower field)) (searchedFields emp).

(** The same without the manager field. *)
Definition searchHitOtherFields (lower : jsstring → jsstring)
    (needle : jsstring) (emp : Employee) : Prop :=
  Exists (λ field, occursIn needle (lower field))
         (textFields emp ++ skills emp).

(** The manager field contains [needle]; a missing or empty manager never
    does. *)
Definition managerHit (lower : jsstring → jsstring) (needle : jsstring)
    (emp : Employee) : Prop :=
  match manager emp with
  | Some m => m ≠ [] ∧ occursIn needle (lower m)
  | None => False
  end.

(** What a record must satisfy to pass the three stages. *)
Definition keeps (lower : jsstring → jsstring)
    (searchText departmentFilter statusFilter : jsstring) (emp : Employee)
  : Prop :=
  (departmentFilter = lit "All" ∨ department emp = departmentFilter)
  ∧ (statusFilter = lit "All"
     ∨ isActive emp = bool_decide (statusFilter = lit "Active"))
  ∧ (trim searchText = []
     ∨ searchHitOtherFields lower (lower searchText) emp
     ∨ managerHit lower (lower searchText) emp).

(** The code unit is a decimal digit. *)
Definition isDigit (c : N) : Prop := 48 ≤ c ≤ 57.









(** ** Sample records *)

(** The two records of the scenario; fields the scenario leaves open are
    empty or zero. *)
Definition record1 : Employee := {|
  emp_id := 1; firstName := lit "Ann"; lastName := []; email := [];
  department := lit "HR"; position := []; salary := 0; hireDate := [];
  age := 0; location := []; performanceRating := 0; projectsCompleted := 0;
  isActive := true; skills := [lit "Excel"]; manager := None |}.

Definition record2 : Employee := {|
  emp_id := 2; firstName := lit "Bo"; lastName := []; email := [];
  department := lit "Eng"; position := []; salary := 0; hireDate := [];
  age := 0; location := []; performanceRating := 0; projectsCompleted := 0;
  isActive := false; skills := [lit "Go"]; manager := Some (lit "Ann") |}.

Definition scenario : list Employee := [record1; record2].

(** Two records that differ in their department only. *)
Definition engineer : Employee := {|
  emp_id := 3; firstName := lit "Cy"; lastName := []; email := [];
  department := lit "Engineering"; position := []; salary := 0;
  hireDate := []; age := 0; location := []; performanceRating := 0;
  projectsCompleted := 0; isActive := true; skills := []; manager := None |}.

Definition supportEngineer : Employee := {|
  emp_id := 4; firstName := lit "Cy"; lastName := []; email := [];
  department := lit "Engineering Support"; position := []; salary := 0;
  hireDate := []; age := 0; location := []; performanceRating := 0;
  projectsCompleted := 0; isActive := true; skills := []; manager := None |}.

(** The exported record of the serialization example. *)
Definition exported : Employee := {|
  emp_id := 7; firstName := lit "Kim"; lastName := lit "Lee";
  email := lit "kim@example.com"; department := lit "Eng";
  position := lit "Engineer"; salary := 95000; hireDate := lit "2020-01-15";
  age := 30; location := lit "Austin"; performanceRating := 9 # 2;
  projectsCompleted := 12; isActive := true;
  skills := [lit "Go"; lit "Rust"]; manager := None |}.


(** Stand-ins for the host functions the export section abstracts, used to
    instantiate statements on the sample records.
    [sample_Number_toString] is [Number::toString] at 10^21 and
    [sample_shortestInteger] the printed integer at 2^70, the one number
    each is asked for; the others are not reached by the sample records. *)
Definition sample_toLocaleDateString (v : Value) : jsstring :=
  lit "1/15/2020".

Definition sample_Number_toString (x : Q) : jsstring := lit "1e+21".

Definition sample_format_coerced (v : Value) : jsstring := lit "$NaN".

Definition sample_shortestInteger (x : Q) : N := 1180591620717411300000.

(** Two hosts: one whose zone is at or ahead of UTC, one behind it. *)
Definition host_atUTC (y m d : N) : bool := false.

Definition host_behindUTC (y m d : N) : bool := true.

(** ** Column formatters of the grid, [columnDefs] *)

(** Lines 182-184, the [valueFormatter] of the status column. *)
Definition statusFormatter (value : Value) : Value :=
  VStr (if ToBoolean value then lit "Active" else lit "Inactive").

(** [v === b] for a boolean literal [b]. *)
Definition strictEqBool (v : Value) (b : bool) : bool :=
  match v with
  | VBool b' => Bool.eqb b' b
  | _ => false
  end.

(** Lines 185-188, [cellClassRules]: the green and the red class. *)
Definition greenRule (value : Value) : bool := strictEqBool value true.

Definition redRule (value : Value) : bool := strictEqBool value false.

(** Lines 198-200 (and the tooltip getter, lines 202-204). *)
Definition skillsFormatter (value : Value) : Completion Value :=
  if isArray value then call_join (lit ", ") value else mret (VStr []).

(** Lines 214-216: [params.value || 'None']. *)
Definition managerFormatter (value : Value) : Completion Value :=
  js_or (mret value) (mret (VStr (lit "None"))).

Section ColumnFormatters.

Variable Number_toString : Q → jsstring.
Variable shortestInteger : Q → N.
Variable format_coerced : Value → jsstring.

(** Lines 99-106. *)
Definition salaryFormatter (value : Value) : Value :=
  VStr (Intl_format shortestInteger format_coerced value).

(** Lines 160-162. *)
Definition performanceFormatter (value : Value) : Completion Value :=
  optional_toFixed1 Number_toString value.

End ColumnFormatters.

(** ** View state and event handlers of the component *)

Section Component.

(** The grid's API object, handed over by [onGridReady]. *)
Variable GridApi : Type.

(** The four [useState] cells, lines 11-14. *)
Record ViewState : Type := {
  gridApi : option GridApi;
  searchText : jsstring;
  departmentFilter : jsstring;
  statusFilter : jsstring
}.

(** The state on mount: the [useState] defaults. *)
Definition initialState : ViewState := {|
  gridApi := None;
  searchText := [];
  departmentFilter := lit "All";
  statusFilter := lit "All" |}.

(** What the user and the grid can do to the component. *)
Inductive Event : Type :=
  | GridReady (api : GridApi)
  | SearchChange (value : jsstring)
  | DepartmentChange (value : jsstring)
  | StatusChange (value : jsstring)
  | ExportClick.

(** The one call the component makes on the grid. *)
Inductive Effect : Type :=
  | ExportDataAsCsv (api : GridApi) (fileName : jsstring).

(** Lines 234-236. *)
Definition onGridReady (st : ViewState) (api : GridApi) : ViewState :=
  {| gridApi := Some api; searchText := searchText st;
     departmentFilter := departmentFilter st;
     statusFilter := statusFilter st |}.

(** Line 334. *)
Definition setSearchText (st : ViewState) (value : jsstring) : ViewState :=
  {| gridApi := gridApi st; searchText := value;
     departmentFilter := departmentFilter st;
     statusFilter := statusFilter st |}.

(** Line 344. *)
Definition setDepartmentFilter (st : ViewState) (value : jsstring)
  : ViewState :=
  {| gridApi := gridApi st; searchText := searchText st;
     departmentFilter := value; statusFilter := statusFilter st |}.

(** Line 359. *)
Definition setStatusFilter (st : ViewState) (value : jsstring) : ViewState :=
  {| gridApi := gridApi st; searchText := searchText st;
     departmentFilter := departmentFilter st; statusFilter := value |}.

(** Lines 273-305: nothing happens while [gridApi] is null. *)
Definition exportToCsv (st : ViewState) : list Effect :=
  match gridApi st with
  | Some api => [ExportDataAsCsv api (lit "employee-data.csv")]
  | None => []
  end.

(** One event: the next state and the calls made on the grid. *)
Definition handle (st : ViewState) (ev : Event) : ViewState * list Effect :=
  match ev with
  | GridReady api => (onGridReady st api, [])
  | SearchChange value => (setSearchText st value, [])
  | DepartmentChange value => (setDepartmentFilter st value, [])
  | StatusChange value => (setStatusFilter st value, [])
  | ExportClick => (st, exportToCsv st)
  end.

(** A sequence of events, with the calls in the order they were made. *)
Fixpoint run (st : ViewState) (events : list Event)
  : ViewState * list Effect :=
  match events with
  | [] => (st, [])
  | ev :: rest =>
      let '(st', out) := handle st ev in
      let '(final, out') := run st' rest in
      (final, out ++ out')
  end.

(** The options of the status [select], lines 362-364. *)
Definition statusOptions : list jsstring :=
  [lit "All"; lit "Active"; lit "Inactive"].

(** The events the rendered controls can deliver: a [select] reports one
    of its options, the department one being populated from
    [departments]. *)
Definition fromControls (employeeData : list Employee) (ev : Event) : Prop :=
  match ev with
  | DepartmentChange value => value ∈ departments employeeData
  | StatusChange value => value ∈ statusOptions
  | _ => True
  end.

(** Both filters are among the options their controls offer. *)
Definition filtersAmongOptions (employeeData : list Employee)
    (st : ViewState) : Prop :=
  departmentFilter st ∈ departments employeeData
  ∧ statusFilter st ∈ statusOptions.

(** The rows handed to the grid in a state, [rowData={filteredData}]. *)
Definition rowData (toLowerCase : jsstring → jsstring)
    (employeeData : list Employee) (st : ViewState)
  : Completion (list Employee) :=
  filteredData toLowerCase employeeData (searchText st) (departmentFilter st)
               (statusFilter st).

End Component.

(** * Properties *)

(** ** The definitions on small inputs *)

Example trim_strips_both_ends : trim (lit "  a b ") = lit "a b".
Proof. reflexivity. Qed.

Example includes_is_unanchored :
  includes (lit "engineering") (lit "eng") = true
  ∧ includes (lit "engineering") (lit "ring") = true
  ∧ includes (lit "engineering") (lit "Eng") = false.
Proof. by vm_compute. Qed.

Example search_eng_finds_Engineering :
  searchStage toLowerCase_latin1 (lit "eng") [record1; engineer]
  = Normal [engineer].
Proof. reflexivity. Qed.

Example scenario_search_bo :
  filteredData toLowerCase_latin1 scenario (lit "bo") (lit "All") (lit "All")
  = Normal [record2].
Proof. reflexivity. Qed.

Example scenario_department_Eng :
  filteredData toLowerCase_latin1 scenario [] (lit "Eng") (lit "All")
  = Normal [record2].
Proof. reflexivity. Qed.

Example scenario_departments :
  departments scenario = [lit "All"; lit "Eng"; lit "HR"].
Proof. reflexivity. Qed.

Example sort_is_case_sensitive :
  Array_sort [lit "b"; lit "a"; lit "B"; lit "ab"]
  = [lit "B"; lit "a"; lit "ab"; lit "b"].
Proof. reflexivity. Qed.

Example formatUSD_rounds_and_groups :
  formatUSD sample_shortestInteger (1234567 # 2) = lit "$617,284"
  ∧ formatUSD sample_shortestInteger (- (5 # 2)) = lit "-$3"
  ∧ formatUSD sample_shortestInteger 999 = lit "$999"
  ∧ formatUSD sample_shortestInteger (inject_Z (2 ^ 70))
    = lit "$1,180,591,620,717,411,300,000".
Proof. by vm_compute. Qed.

Example parseDateOnly_examples :
  parseDateOnly (lit "2020-01-15") = Some (2020, 1, 15)
  ∧ parseDateOnly (lit "2020-02-29") = Some (2020, 2, 29)
  ∧ parseDateOnly (lit "1900-02-29") = None
  ∧ parseDateOnly (lit "2021-13-01") = None
  ∧ parseDateOnly (lit "2020-1-15") = None
  ∧ parseDateOnly (lit "2020-01-15T10:00:00") = None.
Proof. by vm_compute. Qed.

Example shortDate_of_hire_dates :
  shortDate_enUS sample_toLocaleDateString host_atUTC (VStr (lit "2020-01-15"))
  = lit "1/15/2020"
  ∧ shortDate_enUS sample_toLocaleDateString host_behindUTC
      (VStr (lit "2020-01-15")) = lit "1/14/2020"
  ∧ shortDate_enUS sample_toLocaleDateString host_behindUTC
      (VStr (lit "2020-03-01")) = lit "2/29/2020"
  ∧ shortDate_enUS sample_toLocaleDateString host_behindUTC
      (VStr (lit "2021-01-01")) = lit "12/31/2020".
Proof. by vm_compute. Qed.

Example toFixed1_of_rating :
  toFixed1 sample_Number_toString (9 # 2) = lit "4.5"
  ∧ toFixed1 sample_Number_toString 5 = lit "5.0"
  ∧ toFixed1 sample_Number_toString (1 # 4) = lit "0.3".
Proof. by vm_compute. Qed.

(** ** Strings *)

Lemma startsWith_prefix (s pat : jsstring) :
  startsWith s pat = true ↔ pat `prefix_of` s.
Proof.
  revert s. induction pat as [|p pat IH]; intros [|c s]; simpl.
  - split; [intros _; apply prefix_nil | done].
  - split; [intros _; apply prefix_nil | done].
  - split; [done | intros [k Hk]; discriminate].
  - rewrite andb_true_iff, N.eqb_eq, IH. split.
    + intros [-> Hp]. by apply prefix_cons.
    + intros [k Hk]. injection Hk as -> ->. split; [done | by exists k].
Qed.

Lemma includes_occursIn (s pat : jsstring) :
  includes s pat = true ↔ occursIn pat s.
Proof.
  induction s as [|c s IH]; cbn [includes]; rewrite orb_true_iff.
  - rewrite startsWith_prefix. split.
    + intros [[k Hk]|?]; [|done]. exists [], k. exact Hk.
    + intros (pre & post & H). left.
      symmetry in H. apply app_eq_nil in H as [-> H].
      apply app_eq_nil in H as [-> ->]. by exists [].
  - rewrite startsWith_prefix, IH. split.
    + intros [[k Hk]|(pre & post & ->)].
      * exists [], k. exact Hk.
      * by exists (c :: pre), post.
    + intros (pre & post & H). destruct pre as [|c' pre]; simpl in H.
      * left. by exists post.
      * right. injection H as -> ->. by exists pre, post.
Qed.

#[global] Instance occursIn_dec (pat s : jsstring) : Decision (occursIn pat s).
Proof.
  refine (cast_if (decide (includes s pat = true)));
    abstract (by rewrite <- includes_occursIn).
Defined.

Lemma occursIn_nil_l (s : jsstring) : occursIn [] s.
Proof. by exists [], s. Qed.

Lemma occursIn_nil_r (pat : jsstring) : occursIn pat [] → pat = [].
Proof.
  intros (pre & post & H). symmetry in H.
  apply app_eq_nil in H as [_ H]. by apply app_eq_nil in H as [-> _].
Qed.

(** ** Callbacks that complete normally *)

(** A callback that never throws and decides [P] makes [Array_filter] the
    list filter by [P]. *)
Lemma Array_filter_normal {A} (f : A → Completion Value) (P : A → Prop)
    `{!∀ x, Decision (P x)} (arr : list A) :
  (∀ x, ∃ v, f x = Normal v ∧ (ToBoolean v = true ↔ P x)) →
  Array_filter f arr = Normal (filter P arr).
Proof.
  intros Hf. induction arr as [|x arr IH]; [done|].
  cbn [Array_filter]. destruct (Hf x) as (v & -> & Hv).
  rewrite IH, filter_cons. simpl.
  destruct (ToBoolean v), (decide (P x)) as [HP|HP]; try done.
  - exfalso. apply HP, Hv. done.
  - apply Hv in HP. done.
Qed.

Section PipelineFacts.

Variable toLowerCase : jsstring → jsstring.

Lemma lowerIncludes_string (searchLower s : jsstring) :
  lowerIncludes toLowerCase searchLower (VStr s)
  = Normal (VBool (includes (toLowerCase s) searchLower)).
Proof. reflexivity. Qed.

Lemma Array_some_skills (searchLower : jsstring) (arr : list jsstring) :
  ∃ b, Array_some (λ skill, lowerIncludes toLowerCase searchLower (VStr skill)) arr
       = Normal (VBool b)
     ∧ (b = true ↔ Exists (λ field, occursIn searchLower (toLowerCase field)) arr).
Proof.
  induction arr as [|x arr (b & IH & Hb)].
  - exists false. split; [done|]. rewrite Exists_nil. done.
  - cbn [Array_some]. rewrite lowerIncludes_string. simpl.
    destruct (includes (toLowerCase x) searchLower) eqn:Hx.
    + exists true. split; [done|]. rewrite Exists_cons, <- includes_occursIn.
      tauto.
    + exists b. split; [done|]. rewrite Exists_cons, <- includes_occursIn, Hx, Hb.
      split; [tauto | intros [?|?]; done].
Qed.

(** Case analysis on every substring test left in the goal, then the
    value the callback completes with. *)
Local Ltac field_cases :=
  repeat match goal with
  | |- context [includes ?s ?p] => destruct (includes s p)
  end;
  simpl; eexists; (split; [reflexivity|]).

(** The search callback never throws, returns a boolean, and the boolean
    says whether one of the record's other fields or, when there is a
    non-empty manager, the manager contains the text. *)
Lemma searchCallback_fields (searchLower : jsstring) (emp : Employee) :
  ∃ b, searchCallback toLowerCase searchLower emp = Normal (VBool b)
     ∧ (b = true ↔
          searchHitOtherFields toLowerCase searchLower emp
          ∨ managerHit toLowerCase searchLower emp).
Proof.
  destruct (Array_some_skills searchLower (skills emp)) as (bs & Hs & Hbs).
  assert (Hother : searchHitOtherFields toLowerCase searchLower emp ↔
    includes (toLowerCase (firstName emp)) searchLower = true
    ∨ includes (toLowerCase (lastName emp)) searchLower = true
    ∨ includes (toLowerCase (email emp)) searchLower = true
    ∨ includes (toLowerCase (department emp)) searchLower = true
    ∨ includes (toLowerCase (position emp)) searchLower = true
    ∨ includes (toLowerCase (location emp)) searchLower = true
    ∨ bs = true).
  { unfold searchHitOtherFields, textFields.
    rewrite Exists_app, !Exists_cons, Exists_nil, <- !includes_occursIn, <- Hbs.
    tauto. }
  setoid_rewrite Hother. clear Hother Hbs.
  unfold searchCallback. rewrite !lowerIncludes_string, Hs. clear Hs.
  unfold js_or, js_and, get_manager, managerHit.
  destruct (manager emp) as [[|c m]|]; simpl; rewrite ?lowerIncludes_string.
  - field_cases; intuition congruence.
  - destruct (includes (toLowerCase (c :: m)) searchLower) eqn:Hm.
    + apply includes_occursIn in Hm.
      field_cases; (split; [intros _; by right | done]).
    + apply not_true_iff_false in Hm. rewrite includes_occursIn in Hm.
      field_cases; intuition congruence.
  - field_cases; intuition congruence.
Qed.

(** The host's [toLowerCase] maps the empty string to itself. *)
Hypothesis toLowerCase_nil : toLowerCase [] = [].

Lemma searchHit_split (needle : jsstring) (emp : Employee) :
  searchHit toLowerCase needle emp ↔
    searchHitOtherFields toLowerCase needle emp
    ∨ managerHit toLowerCase needle emp.
Proof.
  unfold searchHit, searchHitOtherFields, searchedFields, managerHit.
  rewrite !Exists_app. destruct (manager emp) as [m|]; simpl.
  - rewrite Exists_cons, Exists_nil. split; [|tauto].
    intros [?|[[Hm|[]]|?]]; [tauto| |tauto].
    destruct m as [|c m]; [|by right].
    rewrite toLowerCase_nil in Hm. apply occursIn_nil_r in Hm as ->.
    left. left. apply Exists_cons. left. apply occursIn_nil_l.
  - rewrite Exists_nil. tauto.
Qed.

Lemma searchCallback_searchHit (searchLower : jsstring) (emp : Employee) :
  ∃ v, searchCallback toLowerCase searchLower emp = Normal v
     ∧ (ToBoolean v = true ↔ searchHit toLowerCase searchLower emp).
Proof.
  destruct (searchCallback_fields searchLower emp) as (b & -> & Hb).
  exists (VBool b). by rewrite searchHit_split.
Qed.

End PipelineFacts.

(** ** The stages as list filters *)

#[global] Instance searchHit_dec lower needle emp :
  Decision (searchHit lower needle emp).
Proof. unfold searchHit. apply _. Defined.

#[global] Instance searchHitOtherFields_dec lower needle emp :
  Decision (searchHitOtherFields lower needle emp).
Proof. unfold searchHitOtherFields. apply _. Defined.

#[global] Instance managerHit_dec lower needle emp :
  Decision (managerHit lower needle emp).
Proof. unfold managerHit. destruct (manager emp); apply _. Defined.

Lemma strictEq_true (a b : jsstring) : strictEq a b = true ↔ a = b.
Proof. unfold strictEq. apply bool_decide_eq_true. Qed.

Lemma departmentStage_All (data : list Employee) :
  departmentStage (lit "All") data = Normal data.
Proof. reflexivity. Qed.

Lemma departmentStage_filter (departmentFilter : jsstring)
    (data : list Employee) :
  departmentFilter ≠ lit "All" →
  departmentStage departmentFilter data
  = Normal (filter (λ emp, department emp = departmentFilter) data).
Proof.
  intros Hd. unfold departmentStage, strictEq at 1.
  rewrite bool_decide_eq_false_2 by done. simpl.
  apply Array_filter_normal. intros emp. eexists. split; [reflexivity|].
  simpl. apply strictEq_true.
Qed.

Lemma statusStage_All (data : list Employee) :
  statusStage (lit "All") data = Normal data.
Proof. reflexivity. Qed.

Lemma statusStage_filter (statusFilter : jsstring) (data : list Employee) :
  statusFilter ≠ lit "All" →
  statusStage statusFilter data
  = Normal (filter (λ emp, isActive emp = bool_decide (statusFilter = lit "Active"))
                   data).
Proof.
  intros Ht. unfold statusStage, strictEq at 1.
  rewrite bool_decide_eq_false_2 by done. simpl.
  apply Array_filter_normal. intros emp. eexists. split; [reflexivity|].
  simpl. unfold strictEq. apply Bool.eqb_true_iff.
Qed.

Lemma searchStage_blank toLowerCase (searchText : jsstring)
    (data : list Employee) :
  trim searchText = [] → searchStage toLowerCase searchText data = Normal data.
Proof. intros H. unfold searchStage. by rewrite H. Qed.

Lemma searchStage_filter toLowerCase (searchText : jsstring)
    (data : list Employee) :
  trim searchText ≠ [] →
  searchStage toLowerCase searchText data
  = Normal (filter (λ emp,
              searchHitOtherFields toLowerCase (toLowerCase searchText) emp
              ∨ managerHit toLowerCase (toLowerCase searchText) emp) data).
Proof.
  intros Ht. unfold searchStage.
  destruct (trim searchText) as [|c t]; [done|]. simpl.
  apply Array_filter_normal. intros emp.
  destruct (searchCallback_fields toLowerCase (toLowerCase searchText) emp)
    as (b & -> & Hb).
  by exists (VBool b).
Qed.

#[global] Instance keeps_dec lower s d t emp : Decision (keeps lower s d t emp).
Proof. unfold keeps. apply _. Defined.

Lemma filter_all {A} (P : A → Prop) `{!∀ x, Decision (P x)} (l : list A) :
  (∀ x, P x) → filter P l = l.
Proof.
  intros HP. induction l as [|x l IH]; [done|].
  rewrite filter_cons, IH.
  destruct (decide (P x)) as [|n]; [done | destruct (n (HP x))].
Qed.

Lemma departmentStage_guarded (departmentFilter : jsstring)
    (data : list Employee) :
  departmentStage departmentFilter data
  = Normal (filter (λ emp, departmentFilter = lit "All"
                           ∨ department emp = departmentFilter) data).
Proof.
  destruct (decide (departmentFilter = lit "All")) as [->|Hd].
  - rewrite departmentStage_All. f_equal. symmetry. apply filter_all. by left.
  - rewrite departmentStage_filter by done. f_equal.
    apply list_filter_iff. tauto.
Qed.

Lemma statusStage_guarded (statusFilter : jsstring) (data : list Employee) :
  statusStage statusFilter data
  = Normal (filter (λ emp, statusFilter = lit "All"
                           ∨ isActive emp = bool_decide (statusFilter = lit "Active"))
                   data).
Proof.
  destruct (decide (statusFilter = lit "All")) as [->|Ht].
  - rewrite statusStage_All. f_equal. symmetry. apply filter_all. by left.
  - rewrite statusStage_filter by done. f_equal.
    apply list_filter_iff. tauto.
Qed.

Lemma searchStage_guarded toLowerCase (searchText : jsstring)
    (data : list Employee) :
  searchStage toLowerCase searchText data
  = Normal (filter (λ emp,
              trim searchText = []
              ∨ searchHitOtherFields toLowerCase (toLowerCase searchText) emp
              ∨ managerHit toLowerCase (toLowerCase searchText) emp) data).
Proof.
  destruct (decide (trim searchText = [])) as [Hs|Hs].
  - rewrite searchStage_blank by done. f_equal. symmetry.
    apply filter_all. by left.
  - rewrite searchStage_filter by done. f_equal.
    apply list_filter_iff. tauto.
Qed.

(** The pipeline completes normally with the records that pass all three
    stages, in their input order. *)
Lemma filteredData_filter toLowerCase (employeeData : list Employee)
    (searchText departmentFilter statusFilter : jsstring) :
  filteredData toLowerCase employeeData searchText departmentFilter statusFilter
  = Normal (filter (keeps toLowerCase searchText departmentFilter statusFilter)
                   employeeData).
Proof.
  unfold filteredData.
  rewrite departmentStage_guarded. simpl.
  rewrite statusStage_guarded. simpl.
  rewrite searchStage_guarded.
  rewrite !list_filter_filter. f_equal.
  apply list_filter_iff. unfold keeps. tauto.
Qed.

(** ** The filter pipeline: search, department and status stages *)

Section FilterClaims.

Variable toLowerCase : jsstring → jsstring.

(** C1 (as the code has it).  When [searchText] is not blank, the search
    stage lower-cases [searchText] as it was typed -- [trim] only decides
    whether the stage runs -- and keeps exactly the records of which some
    searched field ([firstName], [lastName], [email], [department],
    [position], [location], the manager when there is one, or an element
    of [skills]), lower-cased, contains that text as a substring. *)
Theorem search_stage_keeps_matching_records
    (searchText : jsstring) (data : list Employee) :
  toLowerCase [] = [] →
  trim searchText ≠ [] →
  searchStage toLowerCase searchText data
  = Normal (filter (searchHit toLowerCase (toLowerCase searchText)) data).
Proof.
  intros Hnil Ht. rewrite searchStage_filter by done. f_equal.
  apply list_filter_iff. intros emp. symmetry. by apply searchHit_split.
Qed.

(** C2.  With the default state (empty search text, ["All"], ["All"]) the
    pipeline returns its input unchanged. *)
Theorem default_state_returns_input (employeeData : list Employee) :
  filteredData toLowerCase employeeData [] (lit "All") (lit "All")
  = Normal employeeData.
Proof. reflexivity. Qed.

(** C3.  For a department filter other than ["All"], the department stage
    keeps exactly the records whose department is the filter value, code
    unit for code unit; with the filter ["Engineering"] a record of the
    department ["Engineering Support"] is not kept. *)
Theorem department_stage_exact_match
    (departmentFilter : jsstring) (data : list Employee) :
  departmentFilter ≠ lit "All" →
  ∃ kept,
    departmentStage departmentFilter data = Normal kept
    ∧ kept = filter (λ emp, department emp = departmentFilter) data
    ∧ (departmentFilter = lit "Engineering" →
       ∀ emp, department emp = lit "Engineering Support" → emp ∉ kept).
Proof.
  intros Hd. eexists. split; [by apply departmentStage_filter|].
  split; [done|]. intros -> emp Hemp [Heq _]%list_elem_of_filter.
  rewrite Hemp in Heq. discriminate.
Qed.

(** C4.  For a status filter other than ["All"], the status stage keeps
    exactly the records whose [isActive] equals
    [statusFilter === "Active"]; on the two records of the scenario,
    the pipeline with an empty search text, department ["All"] and status
    ["Active"] returns record 1 alone. *)
Theorem status_stage_keeps_wanted
    (statusFilter : jsstring) (data : list Employee) :
  statusFilter ≠ lit "All" →
  let wantActive := bool_decide (statusFilter = lit "Active") in
  statusStage statusFilter data
  = Normal (filter (λ emp, isActive emp = wantActive) data)
  ∧ filteredData toLowerCase scenario [] (lit "All") (lit "Active")
    = Normal [record1].
Proof.
  intros Ht wantActive. split; [by apply statusStage_filter | reflexivity].
Qed.

(** C5.  For all inputs the pipeline returns a subsequence of the record
    sequence: the surviving records keep their relative input order.  The
    result is a function of the four arguments alone. *)
Theorem filter_preserves_order (employeeData : list Employee)
    (searchText departmentFilter statusFilter : jsstring) :
  ∃ kept,
    filteredData toLowerCase employeeData searchText departmentFilter
                 statusFilter = Normal kept
    ∧ kept `sublist_of` employeeData.
Proof.
  eexists. split; [apply filteredData_filter | apply sublist_filter].
Qed.

(** C6.  Filtering is idempotent: running the pipeline again on its own
    result, with the same search text and filters, returns that result. *)
Theorem filter_idempotent (r : list Employee) (s d t : jsstring) :
  ∃ kept,
    filteredData toLowerCase r s d t = Normal kept
    ∧ filteredData toLowerCase kept s d t = Normal kept.
Proof.
  eexists. split; [apply filteredData_filter|].
  rewrite filteredData_filter, list_filter_filter. f_equal.
  apply list_filter_iff. tauto.
Qed.

(** C8.  The pipeline never throws: on every record sequence and every
    state it completes normally.  A record without a manager is tested on
    its other fields only: the search callback completes with the boolean
    "some other field contains the text", and the record is in the result
    exactly when it is in the input, passes the department and status
    stages, and (for a non-blank search) one of its other fields matches. *)
Theorem pipeline_total_absent_manager (employeeData : list Employee)
    (searchText departmentFilter statusFilter : jsstring)
    (searchLower : jsstring) (emp : Employee) :
  ∃ kept,
    filteredData toLowerCase employeeData searchText departmentFilter
                 statusFilter = Normal kept
    ∧ (manager emp = None →
       (∃ b, searchCallback toLowerCase searchLower emp = Normal (VBool b)
             ∧ (b = true ↔ searchHitOtherFields toLowerCase searchLower emp))
       ∧ (emp ∈ kept ↔
            emp ∈ employeeData
            ∧ (departmentFilter = lit "All"
               ∨ department emp = departmentFilter)
            ∧ (statusFilter = lit "All"
               ∨ isActive emp = bool_decide (statusFilter = lit "Active"))
            ∧ (trim searchText = []
               ∨ searchHitOtherFields toLowerCase (toLowerCase searchText)
                                      emp))).
Proof.
  eexists. split; [apply filteredData_filter|]. intros Hm.
  assert (Hno : ∀ needle, ¬ managerHit toLowerCase needle emp).
  { intros needle. unfold managerHit. rewrite Hm. tauto. }
  split.
  - destruct (searchCallback_fields toLowerCase searchLower emp)
      as (b & Hb & Hiff).
    exists b. split; [done|]. rewrite Hiff. specialize (Hno searchLower). tauto.
  - rewrite list_elem_of_filter. unfold keeps.
    specialize (Hno (toLowerCase searchText)). tauto.
Qed.

(** C10.  A status filter that is neither ["All"] nor ["Active"] -- for
    instance ["active"], ["inactive"] or any other text -- makes the status
    stage keep exactly the records with [isActive = false], as
    ["Inactive"] does. *)
Theorem unrecognized_status_acts_as_inactive
    (statusFilter : jsstring) (data : list Employee) :
  statusFilter ≠ lit "All" →
  statusFilter ≠ lit "Active" →
  statusStage statusFilter data
  = Normal (filter (λ emp, isActive emp = false) data)
  ∧ statusStage statusFilter data = statusStage (lit "Inactive") data.
Proof.
  intros Hall Hact.
  rewrite statusStage_filter, bool_decide_eq_false_2 by done.
  split; [done|]. symmetry. by apply statusStage_filter.
Qed.

End FilterClaims.

(** *** Instances on the sample records *)

Lemma search_stage_keeps_matching_records_witness :
  toLowerCase_latin1 [] = []
  ∧ trim (lit "eng") ≠ []
  ∧ searchStage toLowerCase_latin1 (lit "eng") [record1; engineer]
    = Normal (filter (searchHit toLowerCase_latin1
                                (toLowerCase_latin1 (lit "eng")))
                     [record1; engineer]).
Proof.
  split; [reflexivity|]. split; [vm_compute; discriminate|].
  apply search_stage_keeps_matching_records;
    [reflexivity | vm_compute; discriminate].
Defined.

(** C1 as worded fails: the text matched is not the trimmed one.  For the
    search text [" bo"] the trimmed, lower-cased text ["bo"] occurs in the
    first name of record 2, yet the stage keeps no record, because it looks
    for [" bo"] with its leading blank. *)
Lemma search_stage_trimmed_text_counterexample :
  ¬ (trim (lit " bo") ≠ [] →
     searchStage toLowerCase_latin1 (lit " bo") scenario
     = Normal (filter (searchHit toLowerCase_latin1
                                 (toLowerCase_latin1 (trim (lit " bo"))))
                      scenario)).
Proof.
  intros H. specialize (H ltac:(vm_compute; discriminate)).
  vm_compute in H. discriminate H.
Qed.

Lemma department_stage_exact_match_witness :
  lit "Engineering" ≠ lit "All"
  ∧ ∃ kept,
      departmentStage (lit "Engineering") [supportEngineer; engineer]
      = Normal kept
      ∧ kept = filter (λ emp, department emp = lit "Engineering")
                      [supportEngineer; engineer]
      ∧ (lit "Engineering" = lit "Engineering" →
         ∀ emp, department emp = lit "Engineering Support" → emp ∉ kept).
Proof.
  split; [vm_compute; discriminate|].
  apply department_stage_exact_match. vm_compute; discriminate.
Defined.

Lemma status_stage_keeps_wanted_witness :
  lit "Active" ≠ lit "All"
  ∧ statusStage (lit "Active") scenario
    = Normal (filter (λ emp, isActive emp
                             = bool_decide (lit "Active" = lit "Active"))
                     scenario)
  ∧ filteredData toLowerCase_latin1 scenario [] (lit "All")
                 (lit "Active") = Normal [record1].
Proof.
  split; [vm_compute; discriminate|].
  apply (status_stage_keeps_wanted toLowerCase_latin1 (lit "Active") scenario).
  vm_compute; discriminate.
Defined.

(** The scenario of C4 whatever the fields it leaves open: of an active and
    an inactive record, the status ["Active"] keeps the first. *)
Lemma status_Active_on_pair toLowerCase (r1 r2 : Employee) :
  isActive r1 = true → isActive r2 = false →
  filteredData toLowerCase [r1; r2] [] (lit "All") (lit "Active")
  = Normal [r1].
Proof.
  intros H1 H2. unfold filteredData. rewrite departmentStage_All.
  change (statusStage (lit "Active") [r1; r2] ≫= searchStage toLowerCase []
          = Normal [r1]).
  rewrite statusStage_filter by (vm_compute; discriminate).
  rewrite !filter_cons, filter_nil.
  change (bool_decide (lit "Active" = lit "Active")) with true.
  destruct (decide (isActive r1 = true)), (decide (isActive r2 = true));
    [congruence | reflexivity | congruence | congruence].
Qed.

Lemma pipeline_total_absent_manager_witness :
  manager record1 = None
  ∧ ∃ kept,
      filteredData toLowerCase_latin1 scenario (lit "ann") (lit "All")
                   (lit "All") = Normal kept
      ∧ (∃ b, searchCallback toLowerCase_latin1 (lit "ann") record1
              = Normal (VBool b)
              ∧ (b = true ↔
                 searchHitOtherFields toLowerCase_latin1 (lit "ann") record1))
      ∧ (record1 ∈ kept ↔
           record1 ∈ scenario
           ∧ (lit "All" = lit "All" ∨ department record1 = lit "All")
           ∧ (lit "All" = lit "All"
              ∨ isActive record1 = bool_decide (lit "All" = lit "Active"))
           ∧ (trim (lit "ann") = []
              ∨ searchHitOtherFields toLowerCase_latin1
                  (toLowerCase_latin1 (lit "ann")) record1)).
Proof.
  split; [reflexivity|].
  destruct (pipeline_total_absent_manager toLowerCase_latin1 scenario
              (lit "ann") (lit "All") (lit "All") (lit "ann") record1)
    as (kept & Hkept & Hrec).
  exists kept. split; [exact Hkept|]. apply Hrec. reflexivity.
Defined.

Lemma unrecognized_status_acts_as_inactive_witness :
  lit "inactive" ≠ lit "All"
  ∧ lit "inactive" ≠ lit "Active"
  ∧ statusStage (lit "inactive") scenario
    = Normal (filter (λ emp, isActive emp = false) scenario)
  ∧ statusStage (lit "inactive") scenario
    = statusStage (lit "Inactive") scenario.
Proof.
  split; [vm_compute; discriminate|]. split; [vm_compute; discriminate|].
  apply unrecognized_status_acts_as_inactive; vm_compute; discriminate.
Defined.

(** ** The department list *)

Lemma Set_of_elem_of_acc (acc iterable : list jsstring) (x : jsstring) :
  x ∈ foldl Set_add acc iterable ↔ x ∈ acc ∨ x ∈ iterable.
Proof.
  revert acc. induction iterable as [|y l IH]; intros acc; simpl.
  - rewrite elem_of_nil. tauto.
  - rewrite IH, elem_of_cons. unfold Set_add. case_bool_decide as Hy.
    + split; [tauto|]. intros [?|[->|?]]; tauto.
    + rewrite elem_of_app, list_elem_of_singleton. tauto.
Qed.

Lemma Set_of_NoDup_acc (acc iterable : list jsstring) :
  NoDup acc → NoDup (foldl Set_add acc iterable).
Proof.
  revert acc. induction iterable as [|y l IH]; intros acc Hacc; [done|].
  simpl. apply IH. unfold Set_add. case_bool_decide as Hy; [done|].
  apply NoDup_app. split; [done|]. split; [|apply NoDup_singleton].
  intros x Hx ->%list_elem_of_singleton. done.
Qed.

Lemma Set_of_elem_of (iterable : list jsstring) (x : jsstring) :
  x ∈ Set_of iterable ↔ x ∈ iterable.
Proof. unfold Set_of. rewrite Set_of_elem_of_acc, elem_of_nil. tauto. Qed.

Lemma Set_of_NoDup (iterable : list jsstring) : NoDup (Set_of iterable).
Proof. apply Set_of_NoDup_acc, NoDup_nil_2. Qed.

#[global] Instance SortCompare_le_total : Total SortCompare_le.
Proof.
  intros x y. unfold SortCompare_le.
  destruct (trichotomy lexico x y) as [H|[->|H]].
  - left. intros H'. by apply (strict_anti_symm (R:=lexico) x y).
  - left. apply (irreflexivity lexico).
  - right. intros H'. by apply (strict_anti_symm (R:=lexico) x y).
Qed.

#[global] Instance SortCompare_le_trans : Transitive SortCompare_le.
Proof.
  intros x y z Hxy Hyz Hzx. unfold SortCompare_le in *.
  destruct (trichotomy lexico x y) as [H|[->|H]]; [|done..].
  apply Hyz. by trans x.
Qed.

#[global] Instance SortCompare_le_antisym : AntiSymm (=) SortCompare_le.
Proof.
  intros x y Hxy Hyx. unfold SortCompare_le in *.
  by destruct (trichotomy lexico x y) as [H|[->|H]].
Qed.

(** Without duplicates, sorted by the comparator means strictly ascending. *)
Lemma StronglySorted_strict (l : list jsstring) :
  NoDup l → StronglySorted SortCompare_le l → StronglySorted lexico l.
Proof.
  intros Hnd Hs. induction Hs as [|x l Hs IH Hx]; [constructor|].
  apply NoDup_cons in Hnd as [Hxl Hnd]. constructor; [by apply IH|].
  rewrite Forall_forall in Hx |- *. intros y Hy.
  destruct (trichotomy lexico x y) as [H|[->|H]]; [done| |].
  - by destruct Hxl.
  - by destruct (Hx y Hy).
Qed.

(** Whatever algorithm the engine runs, the sorted array is the one
    [Array_sort] returns. *)
Lemma Array_sort_unique (arr sorted : list jsstring) :
  sorted ≡ₚ arr → Sorted SortCompare_le sorted → sorted = Array_sort arr.
Proof.
  intros Hp Hs. apply (Sorted_unique SortCompare_le); [done| |].
  - apply Sorted_merge_sort, _.
  - unfold Array_sort. by rewrite merge_sort_Permutation.
Qed.

(** C7.  [departments] is the sentinel ["All"] followed by the distinct
    department values of the records -- every department of a record, no
    other value, none twice -- in strictly ascending code-unit
    (case-sensitive) lexicographic order. *)
Theorem departments_sorted_distinct (employeeData : list Employee) :
  ∃ depts,
    departments employeeData = lit "All" :: depts
    ∧ (∀ d, d ∈ depts ↔ ∃ emp, emp ∈ employeeData ∧ department emp = d)
    ∧ NoDup depts
    ∧ StronglySorted lexico depts.
Proof.
  eexists. split; [reflexivity|].
  assert (Hp : Array_sort (Set_of (List.map department employeeData))
               ≡ₚ Set_of (List.map department employeeData))
    by apply merge_sort_Permutation.
  assert (Hnd : NoDup (Array_sort (Set_of (List.map department employeeData))))
    by (rewrite Hp; apply Set_of_NoDup).
  split; [|split; [done|]].
  - intros d. rewrite Hp, Set_of_elem_of.
    change (List.map department employeeData) with (department <$> employeeData).
    rewrite list_elem_of_fmap.
    split; [intros (emp & -> & Hin) | intros (emp & Hin & <-)]; by exists emp.
  - apply StronglySorted_strict; [done|].
    apply StronglySorted_merge_sort; apply _.
Qed.

(** ** Cell serialization *)

Lemma list_ind3 {A} (P : list A → Prop) :
  P [] → (∀ a, P [a]) → (∀ a b, P [a; b]) →
  (∀ a b c rest, P rest → P (a :: b :: c :: rest)) →
  ∀ l, P l.
Proof.
  intros H0 H1 H2 H3 l.
  enough (P l ∧ (∀ a, P (a :: l)) ∧ (∀ a b, P (a :: b :: l))) by tauto.
  induction l as [|x l (IH0 & IH1 & IH2)]; [done|].
  split; [apply IH1|]. split; [intros a; apply (IH2 a x)|].
  intros a b. by apply H3.
Qed.

Lemma groupRev_elem_of (ds : jsstring) (c : N) :
  c ∈ groupRev ds → c = 44 ∨ c ∈ ds.
Proof.
  induction ds as [|a|a b|a b c' rest IH] using list_ind3; try by right.
  cbn [groupRev]. destruct rest as [|d rest]; [by right|].
  rewrite !elem_of_cons. intros [->|[->|[->|[->|Hc]]]]; try tauto.
  destruct (IH Hc) as [->|Hin]; [tauto|]. apply elem_of_cons in Hin. tauto.
Qed.

Lemma groupThousands_elem_of (ds : jsstring) (c : N) :
  c ∈ groupThousands ds → c = 44 ∨ c ∈ ds.
Proof.
  unfold groupThousands. intros H.
  rewrite list_elem_of_In, <- in_rev, <- list_elem_of_In in H.
  apply groupRev_elem_of in H as [?|H]; [by left | right].
  by rewrite list_elem_of_In, <- in_rev, <- list_elem_of_In in H.
Qed.

Lemma string_of_uint_digits (d : Decimal.uint) :
  Forall isDigit (lit (NilEmpty.string_of_uint d)).
Proof.
  induction d; simpl; constructor; try done; unfold isDigit; simpl; lia.
Qed.

Lemma decimal_digits (n : N) : Forall isDigit (decimal n).
Proof.
  unfold decimal, NilZero.string_of_uint.
  destruct (N.to_uint n) eqn:E; try (rewrite <- E; apply string_of_uint_digits).
  repeat constructor; unfold isDigit; simpl; lia.
Qed.


(** *** Numerals *)

Local Abbreviation digitStep := (λ acc c : N, 10 * acc + digitValue c).







(** *** Grouping by thousands *)




(** *** Rounding and sign *)



(** *** Dates *)






Section SerializationFacts.

Variable toLocaleDateString_enUS : Value → jsstring.
Variable behindUTC : N → N → N → bool.
Variable Number_toString : Q → jsstring.
Variable shortestInteger : Q → N.


(** No amount prints with a decimal point. *)
Lemma formatUSD_no_point (x : Q) : 46 ∉ formatUSD shortestInteger x.
Proof.
  unfold formatUSD, signOf. rewrite !elem_of_app.
  intros [H|[H|H]].
  - destruct (Qle_bool 0 x); [by apply elem_of_nil in H|].
    apply list_elem_of_singleton in H. discriminate.
  - apply list_elem_of_singleton in H. discriminate.
  - apply groupThousands_elem_of in H as [H|H]; [discriminate|].
    match type of H with _ ∈ decimal ?n =>
      pose proof (decimal_digits n) as Hd end.
    rewrite Forall_forall in Hd. apply Hd in H. unfold isDigit in H. lia.
Qed.



End SerializationFacts.

(** *** The exported cells *)

Section ExportClaims.

Variable toLocaleDateString_enUS : Value → jsstring.
Variable behindUTC : N → N → N → bool.
Variable Number_toString : Q → jsstring.
Variable shortestInteger : Q → N.
Variable format_coerced : Value → jsstring.

Local Abbreviation cell emp field :=
  (exportCell toLocaleDateString_enUS behindUTC Number_toString
              shortestInteger format_coerced field emp).


End ExportClaims.

Example exported_date_and_rating_cells :
  exportCell sample_toLocaleDateString host_atUTC sample_Number_toString
    sample_shortestInteger sample_format_coerced "hireDate" exported
  = Normal (VStr (lit "1/15/2020"))
  ∧ exportCell sample_toLocaleDateString host_behindUTC
      sample_Number_toString sample_shortestInteger sample_format_coerced
      "hireDate" exported
    = Normal (VStr (lit "1/14/2020"))
  ∧ exportCell sample_toLocaleDateString host_atUTC sample_Number_toString
      sample_shortestInteger sample_format_coerced "performanceRating"
      exported
    = Normal (VStr (lit "4.5")).
Proof. by vm_compute. Qed.



(** * Further properties of the component *)

(** ** The pipeline as a whole *)

Lemma filter_length_eq {A} (P : A → Prop) `{!∀ x, Decision (P x)}
    (l : list A) :
  length (filter P l) = length l → filter P l = l.
Proof.
  induction l as [|x l IH]; [done|]. rewrite filter_cons.
  destruct (decide (P x)); simpl; intros Hlen.
  - f_equal. apply IH. lia.
  - pose proof (length_filter P l). lia.
Qed.

Lemma filter_sublist_impl {A} (P1 P2 : A → Prop)
    `{!∀ x, Decision (P1 x), !∀ x, Decision (P2 x)} (l : list A) :
  (∀ x, P2 x → P1 x) → filter P2 l `sublist_of` filter P1 l.
Proof.
  intros Himpl.
  replace (filter P2 l) with (filter P2 (filter P1 l)); [apply sublist_filter|].
  rewrite list_filter_filter. apply list_filter_iff.
  intros x. split; [tauto | intros H2; split; [done | by apply Himpl]].
Qed.

Section PipelineProperties.

Variable toLowerCase : jsstring → jsstring.

(** X1.  The counter "Showing n of m employees": n is never more than m,
    and n equals m only when the grid shows every record, in which case the
    rows are the input itself. *)
Theorem results_counter_bounded (employeeData : list Employee)
    (s d t : jsstring) :
  ∃ kept,
    filteredData toLowerCase employeeData s d t = Normal kept
    ∧ (length kept ≤ length employeeData)%nat
    ∧ (length kept = length employeeData ↔ kept = employeeData).
Proof.
  eexists. split; [apply filteredData_filter|].
  split; [apply length_filter|]. split; [apply filter_length_eq|].
  by intros ->.
Qed.

(** X2.  Filtering keeps the ids unique: if no two records of the input
    share an id, no two rows of the result do. *)
Theorem filter_keeps_ids_unique (employeeData : list Employee)
    (s d t : jsstring) :
  NoDup (emp_id <$> employeeData) →
  ∃ kept,
    filteredData toLowerCase employeeData s d t = Normal kept
    ∧ NoDup (emp_id <$> kept).
Proof.
  intros Hnd. eexists. split; [apply filteredData_filter|].
  eapply sublist_NoDup; [exact Hnd|]. apply fmap_sublist, sublist_filter.
Qed.

(** X3.  The three stages commute: running them in any other order gives
    the rows [filteredData] gives. *)
Theorem stages_commute (data : list Employee) (s d t : jsstring) :
  (x ← statusStage t data; departmentStage d x)
  = (x ← departmentStage d data; statusStage t x)
  ∧ (x ← searchStage toLowerCase s data; statusStage t x)
    = (x ← statusStage t data; searchStage toLowerCase s x)
  ∧ (x ← searchStage toLowerCase s data; departmentStage d x)
    = (x ← departmentStage d data; searchStage toLowerCase s x)
  ∧ (x ← searchStage toLowerCase s data; y ← statusStage t x;
     departmentStage d y)
    = filteredData toLowerCase data s d t.
Proof.
  unfold filteredData.
  repeat split;
    repeat (rewrite ?departmentStage_guarded, ?statusStage_guarded,
              ?searchStage_guarded; simpl);
    rewrite !list_filter_filter; f_equal; apply list_filter_iff; tauto.
Qed.

(** X4.  Records are judged one by one: the rows of a concatenated input
    are the rows of the first part followed by the rows of the second. *)
Theorem filter_distributes_over_append (r1 r2 : list Employee)
    (s d t : jsstring) :
  filteredData toLowerCase (r1 ++ r2) s d t
  = (k1 ← filteredData toLowerCase r1 s d t;
     k2 ← filteredData toLowerCase r2 s d t;
     mret (k1 ++ k2)).
Proof. rewrite !filteredData_filter. simpl. by rewrite filter_app. Qed.

End PipelineProperties.

Lemma filter_keeps_ids_unique_witness :
  NoDup (emp_id <$> scenario)
  ∧ ∃ kept,
      filteredData toLowerCase_latin1 scenario (lit "ann") (lit "All")
                   (lit "All") = Normal kept
      ∧ NoDup (emp_id <$> kept).
Proof.
  assert (H : NoDup (emp_id <$> scenario)).
  { apply NoDup_cons. split; [|apply NoDup_singleton].
    intros Hin%list_elem_of_singleton. discriminate Hin. }
  split; [exact H|].
  exact (filter_keeps_ids_unique toLowerCase_latin1 scenario (lit "ann")
           (lit "All") (lit "All") H).
Defined.

(** ** Blank and refined search texts *)

Lemma trimStart_nil_iff (s : jsstring) :
  trimStart s = [] ↔ Forall (λ c, isWhiteSpace c = true) s.
Proof.
  induction s as [|c s IH]; simpl.
  - split; [constructor | done].
  - rewrite Forall_cons. destruct (isWhiteSpace c); [tauto|].
    split; [done | intros [? _]; done].
Qed.

Lemma trimStart_head (s t : jsstring) (c : N) :
  trimStart s = c :: t → isWhiteSpace c = false.
Proof.
  induction s as [|c' s IH]; simpl; [done|].
  destruct (isWhiteSpace c') eqn:Hc; [done|]. by intros [= <- _].
Qed.

(** [trim] leaves nothing exactly of the texts made of white space. *)
Lemma trim_nil_iff (s : jsstring) :
  trim s = [] ↔ Forall (λ c, isWhiteSpace c = true) s.
Proof.
  unfold trim, trimEnd. split.
  - intros H. apply trimStart_nil_iff.
    destruct (trimStart s) as [|c t] eqn:Hs; [done|].
    assert (Hrev : trimStart (rev (c :: t)) = []).
    { apply (f_equal (@rev N)) in H. by rewrite rev_involutive in H. }
    apply trimStart_nil_iff in Hrev. rewrite Forall_forall in Hrev.
    apply trimStart_head in Hs.
    rewrite Hrev in Hs; [done|]. apply list_elem_of_In, in_rev.
    rewrite rev_involutive. by left.
  - intros H. apply trimStart_nil_iff in H. by rewrite H.
Qed.

Lemma occursIn_refl (s : jsstring) : occursIn s s.
Proof. exists [], []. by rewrite app_nil_r. Qed.

Lemma occursIn_trans (a b c : jsstring) :
  occursIn a b → occursIn b c → occursIn a c.
Proof.
  intros (p1 & q1 & ->) (p2 & q2 & ->).
  exists (p2 ++ p1), (q1 ++ q2). by rewrite <- !app_assoc.
Qed.

Section SearchProperties.

Variable toLowerCase : jsstring → jsstring.

Lemma hits_weaken (needle1 needle2 : jsstring) (emp : Employee) :
  occursIn needle1 needle2 →
  searchHitOtherFields toLowerCase needle2 emp
  ∨ managerHit toLowerCase needle2 emp →
  searchHitOtherFields toLowerCase needle1 emp
  ∨ managerHit toLowerCase needle1 emp.
Proof.
  intros H12 [H|H]; [left | right].
  - unfold searchHitOtherFields in *. eapply Exists_impl; [exact H|].
    intros field Hf. by apply (occursIn_trans _ needle2).
  - unfold managerHit in *. destruct (manager emp) as [m|]; [|done].
    destruct H as [Hm H]. split; [done|]. by apply (occursIn_trans _ needle2).
Qed.

Lemma filteredData_blank_search (employeeData : list Employee)
    (s d t : jsstring) :
  trim s = [] →
  filteredData toLowerCase employeeData s d t
  = filteredData toLowerCase employeeData [] d t.
Proof.
  intros Hs. rewrite !filteredData_filter. f_equal.
  apply list_filter_iff. intros emp. unfold keeps. rewrite Hs.
  change (trim []) with (@nil N). tauto.
Qed.

(** X5.  A search text made of white space only (blanks, tabs, line breaks,
    the Unicode spaces) filters like the empty text: the search stage does
    not run. *)
Theorem blank_search_is_no_search (employeeData : list Employee)
    (s d t : jsstring) :
  Forall (λ c, isWhiteSpace c = true) s →
  filteredData toLowerCase employeeData s d t
  = filteredData toLowerCase employeeData [] d t.
Proof. intros Hs%trim_nil_iff. by apply filteredData_blank_search. Qed.

(** X6.  Every filter narrows: the rows for a state are a subsequence of
    the rows for the same state with the search text cleared, with the
    department set to ["All"], or with the status set to ["All"]. *)
Theorem each_filter_narrows (employeeData : list Employee)
    (s d t : jsstring) :
  ∃ kept noSearch anyDepartment anyStatus,
    filteredData toLowerCase employeeData s d t = Normal kept
    ∧ filteredData toLowerCase employeeData [] d t = Normal noSearch
    ∧ filteredData toLowerCase employeeData s (lit "All") t
      = Normal anyDepartment
    ∧ filteredData toLowerCase employeeData s d (lit "All") = Normal anyStatus
    ∧ kept `sublist_of` noSearch
    ∧ kept `sublist_of` anyDepartment
    ∧ kept `sublist_of` anyStatus.
Proof.
  do 4 eexists. rewrite !filteredData_filter.
  repeat (split; [reflexivity|]).
  repeat split; apply filter_sublist_impl; unfold keeps; intros emp;
    change (trim []) with (@nil N); tauto.
Qed.

(** X7.  The status options split the rows: with the same search text and
    department, the rows for ["Active"] and the rows for ["Inactive"]
    together are the rows for ["All"], each once; the two counts add up. *)
Theorem status_options_partition (employeeData : list Employee)
    (s d : jsstring) :
  ∃ every active inactive,
    filteredData toLowerCase employeeData s d (lit "All") = Normal every
    ∧ filteredData toLowerCase employeeData s d (lit "Active") = Normal active
    ∧ filteredData toLowerCase employeeData s d (lit "Inactive")
      = Normal inactive
    ∧ active ++ inactive ≡ₚ every
    ∧ (length active + length inactive = length every)%nat.
Proof.
  do 3 eexists. rewrite !filteredData_filter.
  repeat (split; [reflexivity|]).
  set (every := filter (keeps toLowerCase s d (lit "All")) employeeData).
  assert (Hact : filter (keeps toLowerCase s d (lit "Active")) employeeData
                 = filter (λ emp, isActive emp = true) every).
  { unfold every. rewrite list_filter_filter. apply list_filter_iff.
    intros emp. unfold keeps.
    change (bool_decide (lit "Active" = lit "Active")) with true.
    assert (lit "Active" ≠ lit "All") by (vm_compute; discriminate).
    intuition congruence. }
  assert (Hin : filter (keeps toLowerCase s d (lit "Inactive")) employeeData
                = filter (λ emp, ¬ isActive emp = true) every).
  { unfold every. rewrite list_filter_filter. apply list_filter_iff.
    intros emp. unfold keeps.
    change (bool_decide (lit "Inactive" = lit "Active")) with false.
    assert (lit "Inactive" ≠ lit "All") by (vm_compute; discriminate).
    destruct (isActive emp); intuition congruence. }
  rewrite Hact, Hin.
  assert (Hp := filter_app_complement (λ emp, isActive emp = true) every).
  split; [exact Hp|]. rewrite <- length_app. by apply Permutation_length.
Qed.

(** X8.  Searching for the text of one of a record's own searched fields
    (first or last name, email, department, position, location, manager,
    a skill) finds that record, provided the text is not blank. *)
Theorem search_finds_own_field (employeeData : list Employee)
    (emp : Employee) (field : jsstring) :
  emp ∈ employeeData →
  field ∈ searchedFields emp →
  trim field ≠ [] →
  ∃ kept,
    filteredData toLowerCase employeeData field (lit "All") (lit "All")
    = Normal kept
    ∧ emp ∈ kept.
Proof.
  intros Hemp Hfield Htrim. eexists. split; [apply filteredData_filter|].
  apply list_elem_of_filter. split; [|done]. unfold keeps.
  split; [by left|]. split; [by left|]. right.
  unfold searchedFields in Hfield.
  rewrite app_assoc, elem_of_app, elem_of_app in Hfield.
  unfold searchHitOtherFields, managerHit.
  destruct Hfield as [[Hf|Hf]|Hf].
  - left. apply Exists_app. left. apply Exists_exists.
    exists field. split; [done | apply occursIn_refl].
  - right. destruct (manager emp) as [m|]; simpl in Hf.
    + apply list_elem_of_singleton in Hf as ->.
      split; [by intros -> | apply occursIn_refl].
    + by apply elem_of_nil in Hf.
  - left. apply Exists_app. right. apply Exists_exists.
    exists field. split; [done | apply occursIn_refl].
Qed.

(** X9.  Refining the search narrows the rows: when the lower-cased text
    of one search occurs in the lower-cased text of a second, non-blank
    search, the rows of the second are a subsequence of the rows of the
    first. *)
Theorem refined_search_narrows (employeeData : list Employee)
    (s1 s2 d t : jsstring) :
  occursIn (toLowerCase s1) (toLowerCase s2) →
  trim s2 ≠ [] →
  ∃ rows1 rows2,
    filteredData toLowerCase employeeData s1 d t = Normal rows1
    ∧ filteredData toLowerCase employeeData s2 d t = Normal rows2
    ∧ rows2 `sublist_of` rows1.
Proof.
  intros Hocc Htrim. do 2 eexists. rewrite !filteredData_filter.
  repeat (split; [reflexivity|]).
  apply filter_sublist_impl. unfold keeps.
  intros emp (Hd & Ht & [Hblank|Hhit]); [done|].
  repeat split; [done..|]. right. by apply (hits_weaken _ (toLowerCase s2)).
Qed.

End SearchProperties.

Lemma blank_search_is_no_search_witness :
  Forall (λ c, isWhiteSpace c = true) [32; 9; 160]
  ∧ filteredData toLowerCase_latin1 scenario [32; 9; 160] (lit "Eng")
                 (lit "All")
    = filteredData toLowerCase_latin1 scenario [] (lit "Eng") (lit "All").
Proof.
  assert (H : Forall (λ c, isWhiteSpace c = true) [32; 9; 160])
    by (repeat constructor).
  split; [exact H|].
  exact (blank_search_is_no_search toLowerCase_latin1 scenario [32; 9; 160]
           (lit "Eng") (lit "All") H).
Defined.

Lemma search_finds_own_field_witness :
  record2 ∈ scenario
  ∧ lit "Ann" ∈ searchedFields record2
  ∧ trim (lit "Ann") ≠ []
  ∧ ∃ kept,
      filteredData toLowerCase_latin1 scenario (lit "Ann") (lit "All")
                   (lit "All") = Normal kept
      ∧ record2 ∈ kept.
Proof.
  assert (H1 : record2 ∈ scenario) by (apply list_elem_of_further, list_elem_of_here).
  assert (H2 : lit "Ann" ∈ searchedFields record2).
  { unfold searchedFields. apply elem_of_app. right. apply elem_of_app. left.
    apply list_elem_of_here. }
  assert (H3 : trim (lit "Ann") ≠ []) by (vm_compute; discriminate).
  split; [exact H1|]. split; [exact H2|]. split; [exact H3|].
  exact (search_finds_own_field toLowerCase_latin1 scenario record2
           (lit "Ann") H1 H2 H3).
Defined.

Lemma refined_search_narrows_witness :
  occursIn (toLowerCase_latin1 (lit "B")) (toLowerCase_latin1 (lit "Bo"))
  ∧ trim (lit "Bo") ≠ []
  ∧ ∃ rows1 rows2,
      filteredData toLowerCase_latin1 scenario (lit "B") (lit "All")
                   (lit "All") = Normal rows1
      ∧ filteredData toLowerCase_latin1 scenario (lit "Bo") (lit "All")
                     (lit "All") = Normal rows2
      ∧ rows2 `sublist_of` rows1.
Proof.
  assert (H1 : occursIn (toLowerCase_latin1 (lit "B"))
                        (toLowerCase_latin1 (lit "Bo")))
    by (exists [], (lit "o"); reflexivity).
  assert (H2 : trim (lit "Bo") ≠ []) by (vm_compute; discriminate).
  split; [exact H1|]. split; [exact H2|].
  exact (refined_search_narrows toLowerCase_latin1 scenario (lit "B")
           (lit "Bo") (lit "All") (lit "All") H1 H2).
Defined.

(** ** The department options and the rows they select *)

Lemma Array_sort_Permutation (arr : list jsstring) : Array_sort arr ≡ₚ arr.
Proof. apply merge_sort_Permutation. Qed.

Lemma Array_sort_perm_eq (arr1 arr2 : list jsstring) :
  arr1 ≡ₚ arr2 → Array_sort arr1 = Array_sort arr2.
Proof.
  intros Hp. apply Array_sort_unique.
  - by rewrite Array_sort_Permutation.
  - apply Sorted_merge_sort, _.
Qed.

Lemma departments_elem_of (employeeData : list Employee) (d : jsstring) :
  d ∈ departments employeeData ↔
    d = lit "All" ∨ ∃ emp, emp ∈ employeeData ∧ department emp = d.
Proof.
  unfold departments. rewrite elem_of_cons, Array_sort_Permutation.
  rewrite Set_of_elem_of.
  change (List.map department employeeData) with (department <$> employeeData).
  rewrite list_elem_of_fmap.
  split; (intros [?|(emp & H1 & H2)]; [by left | right; by exists emp]).
Qed.

Section DepartmentOptions.

Variable toLowerCase : jsstring → jsstring.

Lemma department_option_rows (employeeData : list Employee) (d : jsstring) :
  d ∈ departments employeeData →
  employeeData ≠ [] →
  filter (keeps toLowerCase [] d (lit "All")) employeeData ≠ [].
Proof.
  intros Hd Hne.
  assert (∃ emp, emp ∈ employeeData
                 ∧ keeps toLowerCase [] d (lit "All") emp) as (emp & Hin & Hk).
  { apply departments_elem_of in Hd as [->|(emp & Hin & <-)].
    - destruct employeeData as [|emp rest]; [done|].
      exists emp. split; [apply list_elem_of_here|].
      unfold keeps. repeat split; by left.
    - exists emp. split; [done|].
      unfold keeps. split; [by right|]. split; by left. }
  intros Hnil. assert (Hel : emp ∈ filter (keeps toLowerCase [] d (lit "All"))
                                   employeeData)
    by (by apply list_elem_of_filter).
  rewrite Hnil in Hel. by apply elem_of_nil in Hel.
Qed.

(** X10.  No department option leads to the empty overlay on its own: with
    a non-empty record sequence, an empty search text and status ["All"],
    every entry of [departments] selects at least one row, and an entry
    other than ["All"] selects rows of that department only. *)
Theorem every_department_option_has_rows (employeeData : list Employee)
    (d : jsstring) :
  d ∈ departments employeeData →
  employeeData ≠ [] →
  ∃ kept,
    filteredData toLowerCase employeeData [] d (lit "All") = Normal kept
    ∧ kept ≠ []
    ∧ (d ≠ lit "All" → Forall (λ emp, department emp = d) kept).
Proof.
  intros Hd Hne. eexists. split; [apply filteredData_filter|]. split.
  - by apply department_option_rows.
  - intros Hall. apply Forall_forall.
    intros emp [(Hk & _) _]%list_elem_of_filter.
    by destruct Hk.
Qed.

(** X11.  Every record can be reached through the controls: its department
    is among the options, and selecting that department and the status that
    matches its [isActive] shows the record. *)
Theorem record_listed_under_own_options (employeeData : list Employee)
    (emp : Employee) :
  emp ∈ employeeData →
  department emp ∈ departments employeeData
  ∧ ∃ kept,
      filteredData toLowerCase employeeData [] (department emp)
        (if isActive emp then lit "Active" else lit "Inactive") = Normal kept
      ∧ emp ∈ kept.
Proof.
  intros Hin. split.
  - apply departments_elem_of. right. by exists emp.
  - eexists. split; [apply filteredData_filter|].
    apply list_elem_of_filter. split; [|done].
    unfold keeps. split; [by right|]. split; [|by left].
    right. by destruct (isActive emp).
Qed.

End DepartmentOptions.

(** X12.  The department options depend on the department values that
    occur and on nothing else: two record sequences with the same values,
    in whatever order and multiplicity, give the same list. *)
Theorem departments_depend_on_values_only (data1 data2 : list Employee) :
  (∀ d, d ∈ department <$> data1 ↔ d ∈ department <$> data2) →
  departments data1 = departments data2.
Proof.
  intros Hsame. unfold departments. f_equal. apply Array_sort_perm_eq.
  apply NoDup_Permutation; [apply Set_of_NoDup..|].
  intros d. rewrite !Set_of_elem_of. apply Hsame.
Qed.

(** X13.  The department list is ["All"] alone exactly for the empty record
    sequence, and never has more entries than one plus the number of
    records. *)
Theorem departments_size (employeeData : list Employee) :
  (departments employeeData = [lit "All"] ↔ employeeData = [])
  ∧ (length (departments employeeData) ≤ S (length employeeData))%nat.
Proof.
  split.
  - split; [|by intros ->].
    destruct employeeData as [|emp rest]; [done|]. intros H.
    assert (Hin : department emp ∈ Array_sort
                    (Set_of (List.map department (emp :: rest)))).
    { rewrite Array_sort_Permutation, Set_of_elem_of. apply list_elem_of_here. }
    assert (E : Array_sort (Set_of (List.map department (emp :: rest))) = [])
      by (unfold departments in H; by injection H).
    rewrite E in Hin. by apply elem_of_nil in Hin.
  - unfold departments. simpl. apply le_n_S.
    rewrite Array_sort_Permutation.
    rewrite <- (length_map department employeeData).
    apply submseteq_length, NoDup_submseteq; [apply Set_of_NoDup|].
    intros d. by rewrite Set_of_elem_of.
Qed.

Lemma every_department_option_has_rows_witness :
  lit "Eng" ∈ departments scenario
  ∧ scenario ≠ []
  ∧ ∃ kept,
      filteredData toLowerCase_latin1 scenario [] (lit "Eng") (lit "All")
      = Normal kept
      ∧ kept ≠ []
      ∧ (lit "Eng" ≠ lit "All" →
         Forall (λ emp, department emp = lit "Eng") kept).
Proof.
  assert (H1 : lit "Eng" ∈ departments scenario)
    by (apply list_elem_of_further, list_elem_of_here).
  assert (H2 : scenario ≠ []) by discriminate.
  split; [exact H1|]. split; [exact H2|].
  exact (every_department_option_has_rows toLowerCase_latin1 scenario
           (lit "Eng") H1 H2).
Defined.

Lemma record_listed_under_own_options_witness :
  record2 ∈ scenario
  ∧ department record2 ∈ departments scenario
  ∧ ∃ kept,
      filteredData toLowerCase_latin1 scenario [] (department record2)
        (if isActive record2 then lit "Active" else lit "Inactive")
      = Normal kept
      ∧ record2 ∈ kept.
Proof.
  assert (H : record2 ∈ scenario)
    by (apply list_elem_of_further, list_elem_of_here).
  split; [exact H|].
  exact (record_listed_under_own_options toLowerCase_latin1 scenario
           record2 H).
Defined.

Lemma departments_depend_on_values_only_witness :
  (∀ d, d ∈ department <$> scenario
        ↔ d ∈ department <$> [record2; record1; record2])
  ∧ departments scenario = departments [record2; record1; record2].
Proof.
  assert (H : ∀ d, d ∈ department <$> scenario
                   ↔ d ∈ department <$> [record2; record1; record2]).
  { intros d. simpl. rewrite !elem_of_cons. tauto. }
  split; [exact H|].
  exact (departments_depend_on_values_only scenario
           [record2; record1; record2] H).
Defined.

(** ** What the grid shows and what the export writes *)

Section ScreenAndExport.

Variable toLocaleDateString_enUS : Value → jsstring.
Variable behindUTC : N → N → N → bool.
Variable Number_toString : Q → jsstring.
Variable shortestInteger : Q → N.
Variable format_coerced : Value → jsstring.

Local Abbreviation callback :=
  (processCellCallback toLocaleDateString_enUS behindUTC Number_toString
                       shortestInteger format_coerced).

Local Abbreviation exported_cell :=
  (exportCell toLocaleDateString_enUS behindUTC Number_toString
              shortestInteger format_coerced).

(** X14.  The export writes what the grid shows in the status, salary and
    performance columns, for any cell value, and in the skills column for
    any array; for a skills value that is not an array the grid shows the
    empty text while the export passes the value through.  On the rows of
    the component the four columns agree. *)
Theorem export_matches_screen (value : Value) (emp : Employee) :
  callback "isActive" value = Normal (statusFormatter value)
  ∧ callback "salary" value
    = Normal (salaryFormatter shortestInteger format_coerced value)
  ∧ callback "performanceRating" value
    = performanceFormatter Number_toString value
  ∧ (callback "skills" value = skillsFormatter value
     ↔ isArray value = true ∨ value = VStr [])
  ∧ exported_cell "skills" emp = skillsFormatter (cellValue "skills" emp).
Proof.
  split; [reflexivity|]. split; [reflexivity|]. split; [reflexivity|].
  split; [|reflexivity].
  unfold processCellCallback, skillsFormatter.
  destruct value; simpl; split; try tauto; try done;
    try (intros [?|?]; done); try (intros [= ->]; by right);
    try (intros [?|[= ->]]; done).
Qed.

(** X15.  The manager column differs between screen and file: the grid
    never shows an empty manager cell (a missing or empty manager reads
    ["None"], any other manager reads as it is), the export writes the raw
    value, and the two are the same exactly for a present, non-empty
    manager. *)
Theorem manager_screen_and_export (emp : Employee) :
  ∃ shown,
    managerFormatter (cellValue "manager" emp) = Normal (VStr shown)
    ∧ shown ≠ []
    ∧ (∀ m, manager emp = Some m → m ≠ [] → shown = m)
    ∧ (manager emp = None ∨ manager emp = Some [] → shown = lit "None")
    ∧ exported_cell "manager" emp = Normal (get_manager emp)
    ∧ (exported_cell "manager" emp
       = managerFormatter (cellValue "manager" emp)
       ↔ ∃ m, manager emp = Some m ∧ m ≠ []).
Proof.
  unfold exportCell, processCellCallback, managerFormatter, js_or.
  change (cellValue "manager" emp) with (get_manager emp). simpl.
  unfold get_manager. destruct (manager emp) as [[|c m]|]; simpl.
  - exists (lit "None"). repeat split; try done.
    + by intros m [= <-].
    + by intros (m & [= <-] & ?).
  - exists (c :: m). repeat split; try done.
    + by intros m' [= <-].
    + by intros [|].
    + by exists (c :: m).
  - exists (lit "None"). repeat split; try done.
    by intros (m & ? & ?).
Qed.

(** X16.  The export callback throws in one situation only: the
    performance column holding a value that is neither a number nor
    [null] nor [undefined].  On the rows of the component, whatever the
    column, it completes normally. *)
Theorem export_throws_only_on_bad_rating (field : string) (value : Value)
    (emp : Employee) :
  ((∃ e, callback field value = Throw e) ↔
     field = "performanceRating"%string
     ∧ value ≠ VUndefined ∧ value ≠ VNull ∧ ∀ x, value ≠ VNum x)
  ∧ ∃ cell, exported_cell field emp = Normal cell.
Proof.
  split.
  - unfold processCellCallback.
    destruct (String.eqb_spec field "skills") as [->|Hsk]; simpl.
    { destruct value; simpl; split;
        try (intros [e [=]]); try (intros [[=] _]). }
    destruct (String.eqb_spec field "isActive") as [->|Hact].
    { split; [intros [e [=]] | intros [[=] _]]. }
    destruct (String.eqb_spec field "salary") as [->|Hsal].
    { split; [intros [e [=]] | intros [[=] _]]. }
    destruct (String.eqb_spec field "hireDate") as [->|Hdate].
    { split; [intros [e [=]] | intros [[=] _]]. }
    destruct (String.eqb_spec field "performanceRating") as [->|Hperf].
    + destruct value; simpl;
        (split; [intros [e He] | intros (_ & H1 & H2 & H3)]);
        try discriminate He; try done; try (by destruct (H3 x));
        try (by eexists);
        repeat split; try done; intros; discriminate.
    + split; [intros [e [=]] | intros [? _]; done].
  - unfold exportCell, processCellCallback, cellValue.
    repeat match goal with
    | |- context [String.eqb field ?s] =>
        destruct (String.eqb_spec field s) as [->|_]; simpl;
        [by eexists|]
    end.
    by eexists.
Qed.

(** X17.  Colour and label of the status cell agree: the green class goes
    with the label ["Active"], the red class with ["Inactive"], never both;
    on a row exactly one of the two classes applies. *)
Theorem status_colour_matches_label (value : Value) (emp : Employee) :
  (greenRule value = true → statusFormatter value = VStr (lit "Active"))
  ∧ (redRule value = true → statusFormatter value = VStr (lit "Inactive"))
  ∧ ¬ (greenRule value = true ∧ redRule value = true)
  ∧ greenRule (cellValue "isActive" emp)
    = negb (redRule (cellValue "isActive" emp)).
Proof.
  unfold greenRule, redRule, statusFormatter, strictEqBool.
  split; [|split; [|split]].
  - destruct value as [| |[]| | |]; simpl; done.
  - destruct value as [| |[]| | |]; simpl; done.
  - destruct value as [| |[]| | |]; simpl; intros [? ?]; done.
  - change (cellValue "isActive" emp) with (VBool (isActive emp)).
    by destruct (isActive emp).
Qed.

End ScreenAndExport.

(** ** The component as a state machine *)

Section ComponentProperties.

Variable GridApi : Type.
Variable toLowerCase : jsstring → jsstring.
Variable employeeData : list Employee.

Lemma run_without_grid (st : ViewState GridApi) (events : list (Event GridApi)) :
  gridApi GridApi st = None →
  (∀ api, GridReady GridApi api ∉ events) →
  (run GridApi st events).2 = [].
Proof.
  revert st. induction events as [|ev rest IH]; intros st Hnone Hno; [done|].
  simpl. assert (Hrest : ∀ api, GridReady GridApi api ∉ rest).
  { intros api Hin. apply (Hno api). by apply list_elem_of_further. }
  destruct ev as [api|v|v|v|]; simpl.
  - destruct (Hno api). apply list_elem_of_here.
  - specialize (IH (setSearchText GridApi st v) Hnone Hrest).
    by destruct (run GridApi (setSearchText GridApi st v) rest).
  - specialize (IH (setDepartmentFilter GridApi st v) Hnone Hrest).
    by destruct (run GridApi (setDepartmentFilter GridApi st v) rest).
  - specialize (IH (setStatusFilter GridApi st v) Hnone Hrest).
    by destruct (run GridApi (setStatusFilter GridApi st v) rest).
  - specialize (IH st Hnone Hrest). unfold exportToCsv. rewrite Hnone.
    by destruct (run GridApi st rest).
Qed.

(** X18.  The export button does nothing until the grid has reported
    ready: from the state on mount, a sequence of events without
    [onGridReady] makes no call on the grid, however often the button is
    pressed; and every call ever made names the file
    ["employee-data.csv"]. *)
Theorem no_export_before_grid_ready (st : ViewState GridApi)
    (events : list (Event GridApi)) :
  ((∀ api, GridReady GridApi api ∉ events) →
   (run GridApi (initialState GridApi) events).2 = [])
  ∧ Forall (λ eff, ∃ api,
              eff = ExportDataAsCsv GridApi api (lit "employee-data.csv"))
           (run GridApi st events).2.
Proof.
  split; [by apply run_without_grid|].
  revert st. induction events as [|ev rest IH]; intros st; [constructor|].
  simpl. destruct (handle GridApi st ev) as [st' out] eqn:Hh.
  specialize (IH st'). destruct (run GridApi st' rest) as [final out'].
  simpl in *. apply Forall_app. split; [|done].
  destruct ev; simpl in Hh; injection Hh as <- <-; try constructor.
  unfold exportToCsv. destruct (gridApi GridApi st) as [api|]; [|constructor].
  constructor; [by exists api | constructor].
Qed.

Lemma run_keeps_filters_among_options (st : ViewState GridApi)
    (events : list (Event GridApi)) :
  filtersAmongOptions GridApi employeeData st →
  Forall (fromControls GridApi employeeData) events →
  filtersAmongOptions GridApi employeeData (run GridApi st events).1.
Proof.
  revert st. induction events as [|ev rest IH]; intros st Hst Hev; [done|].
  apply Forall_cons in Hev as [Hev Hrest]. simpl.
  destruct (handle GridApi st ev) as [st' out] eqn:Hh.
  assert (Hst' : filtersAmongOptions GridApi employeeData st').
  { destruct Hst as [Hd Ht].
    destruct ev; simpl in Hh, Hev; injection Hh as <- _; by split. }
  specialize (IH st' Hst' Hrest).
  by destruct (run GridApi st' rest).
Qed.

Lemma initialState_among_options :
  filtersAmongOptions GridApi employeeData (initialState GridApi).
Proof.
  split; [apply list_elem_of_here | apply list_elem_of_here].
Qed.

(** X19.  Whatever the user does with the controls, the department filter
    is one of the listed department options and the status filter is one of
    ["All"], ["Active"], ["Inactive"]. *)
Theorem controls_keep_filters_among_options (events : list (Event GridApi)) :
  Forall (fromControls GridApi employeeData) events →
  departmentFilter GridApi (run GridApi (initialState GridApi) events).1
    ∈ departments employeeData
  ∧ statusFilter GridApi (run GridApi (initialState GridApi) events).1
    ∈ statusOptions.
Proof.
  intros Hev.
  by apply (run_keeps_filters_among_options _ _ initialState_among_options).
Qed.

(** X20.  With records to show, the department control alone never empties
    the grid: in any state the controls can reach in which the search text
    is blank and the status is ["All"], [rowData] has at least one row. *)
Theorem department_control_never_empties_grid
    (events : list (Event GridApi)) :
  Forall (fromControls GridApi employeeData) events →
  employeeData ≠ [] →
  let st := (run GridApi (initialState GridApi) events).1 in
  trim (searchText GridApi st) = [] →
  statusFilter GridApi st = lit "All" →
  ∃ rows, rowData GridApi toLowerCase employeeData st = Normal rows
          ∧ rows ≠ [].
Proof.
  intros Hev Hne st Hblank Hall.
  destruct (run_keeps_filters_among_options _ _ initialState_among_options Hev)
    as [Hd _].
  fold st in Hd. unfold rowData.
  rewrite filteredData_blank_search by done. rewrite Hall.
  rewrite filteredData_filter. eexists. split; [reflexivity|].
  by apply department_option_rows.
Qed.

End ComponentProperties.

Lemma no_export_before_grid_ready_witness :
  (∀ api, GridReady unit api
          ∉ [SearchChange unit (lit "bo"); ExportClick unit; ExportClick unit])
  ∧ (run unit (initialState unit)
         [SearchChange unit (lit "bo"); ExportClick unit; ExportClick unit]).2
    = [].
Proof.
  assert (H : ∀ api, GridReady unit api
                ∉ [SearchChange unit (lit "bo"); ExportClick unit;
                   ExportClick unit]).
  { intros api. rewrite !elem_of_cons.
    intros [?|[?|[?|?%elem_of_nil]]]; discriminate || done. }
  split; [exact H|].
  exact (proj1 (no_export_before_grid_ready unit (initialState unit) _) H).
Defined.

Lemma controls_keep_filters_among_options_witness :
  Forall (fromControls unit scenario)
         [DepartmentChange unit (lit "Eng"); StatusChange unit (lit "Active");
          ExportClick unit]
  ∧ departmentFilter unit
      (run unit (initialState unit)
         [DepartmentChange unit (lit "Eng"); StatusChange unit (lit "Active");
          ExportClick unit]).1 ∈ departments scenario
  ∧ statusFilter unit
      (run unit (initialState unit)
         [DepartmentChange unit (lit "Eng"); StatusChange unit (lit "Active");
          ExportClick unit]).1 ∈ statusOptions.
Proof.
  assert (H : Forall (fromControls unit scenario)
                [DepartmentChange unit (lit "Eng");
                 StatusChange unit (lit "Active"); ExportClick unit]).
  { repeat constructor. }
  split; [exact H|].
  exact (controls_keep_filters_among_options unit scenario _ H).
Defined.

Lemma department_control_never_empties_grid_witness :
  Forall (fromControls unit scenario)
         [DepartmentChange unit (lit "Eng"); SearchChange unit [32]]
  ∧ scenario ≠ []
  ∧ ∃ rows,
      rowData unit toLowerCase_latin1 scenario
        (run unit (initialState unit)
           [DepartmentChange unit (lit "Eng"); SearchChange unit [32]]).1
      = Normal rows
      ∧ rows ≠ [].
Proof.
  assert (H : Forall (fromControls unit scenario)
                [DepartmentChange unit (lit "Eng"); SearchChange unit [32]]).
  { repeat constructor. }
  assert (Hne : scenario ≠ []) by discriminate.
  split; [exact H|]. split; [exact Hne|].
  exact (department_control_never_empties_grid unit toLowerCase_latin1
           scenario _ H Hne eq_refl eq_refl).
Defined.

Lemma manager_screen_and_export_witness :
  manager record2 = Some (lit "Ann")
  ∧ lit "Ann" ≠ []
  ∧ ∃ shown,
      managerFormatter (cellValue "manager" record2) = Normal (VStr shown)
      ∧ shown = lit "Ann".
Proof.
  split; [reflexivity|]. split; [discriminate|].
  destruct (manager_screen_and_export sample_toLocaleDateString host_atUTC
              sample_Number_toString sample_shortestInteger
              sample_format_coerced record2)
    as (shown & Hshown & _ & Hsame & _).
  exists shown. split; [exact Hshown|].
  apply Hsame; [reflexivity | discriminate].
Defined.

Lemma status_colour_matches_label_witness :
  greenRule (VBool true) = true
  ∧ statusFormatter (VBool true) = VStr (lit "Active").
Proof.
  split; [reflexivity|].
  apply (status_colour_matches_label (VBool true) record1). reflexivity.
Defined.
